(** * ttyd: the per-client session engine of [src/protocol.c]

    A shallow embedding of the websocket callback [callback_tty] and of the
    helpers it calls ([send_initial_message], [parse_window_size],
    [check_host_origin], [tty_client_remove], [tty_client_destroy],
    [read_cb], [thread_cb]), followed by the properties of the session
    protocol that are proved about them.

    Conventions.
    - A byte buffer together with its length is a [string], and so is the
      memory a [char *] points to; where C reads it as a string, the model
      stops at the first NUL byte ([c_str]).  [char] is [ascii]; [int],
      [size_t], [pid_t] and file descriptors are [Z]; a pointer that may be
      [NULL] is an [option].
    - Calls into the operating system, libuv and libwebsockets that have an
      effect are recorded, in program order, in a list of [event]s.
    - What such a call returns is not decided by the program: it is read
      from a record [env] that is an argument of the function.
    - The constants of [server.h] and the functions of json-c and
      libwebsockets' URI parser are parameters ([server_h], [json_c],
      [uri_parser]). *)

From Stdlib Require Import ZArith List String Ascii Bool Lia DecimalString.
Import ListNotations.
Local Open Scope Z_scope.

(** ** Constants and library interfaces *)

(** The message tags and the websocket path are macros of [server.h]. *)
Record server_h : Type := {
  INPUT : ascii;
  RESIZE_TERMINAL : ascii;
  JSON_DATA : ascii;
  OUTPUT : ascii;
  SET_WINDOW_TITLE : ascii;
  SET_RECONNECT : ascii;
  SET_PREFERENCES : ascii;
  WS_PATH : string
}.

(** The [case] labels of the [switch] over the client command are pairwise
    different (a C compiler rejects duplicate labels). *)
Definition client_tags_distinct (H : server_h) : Prop :=
  INPUT H <> RESIZE_TERMINAL H /\
  INPUT H <> JSON_DATA H /\
  RESIZE_TERMINAL H <> JSON_DATA H.

(** [enum pty_state] of [server.h]. *)
Inductive pty_state : Type := STATE_INIT | STATE_READY | STATE_DONE.

Definition pty_state_eqb (a b : pty_state) : bool :=
  match a, b with
  | STATE_INIT, STATE_INIT | STATE_READY, STATE_READY
  | STATE_DONE, STATE_DONE => true
  | _, _ => false
  end.

(** [enum lws_close_status] (RFC 6455 close codes). *)
Definition LWS_CLOSE_STATUS_NORMAL : Z := 1000.
Definition LWS_CLOSE_STATUS_POLICY_VIOLATION : Z := 1008.
Definition LWS_CLOSE_STATUS_UNEXPECTED_CONDITION : Z := 1011.

(** libuv error codes ([uv-errno.h]; [UV_ENOBUFS] is [-ENOBUFS]). *)
Definition UV_EOF : Z := -4095.
Definition UV_ENOBUFS : Z := -105.

(** The part of json-c that the program calls.  [None] stands for a [NULL]
    object; [json_object_object_get_ex] answers [None] for "no such key"
    and [Some o] for "found, value [o]". *)
Record json_c : Type := {
  json_object : Type;
  json_tokener_parse : string -> option json_object;
  json_object_object_get_ex :
    option json_object -> string -> option (option json_object);
  json_object_get_int : option json_object -> Z;
  json_object_get_string : option json_object -> option string
}.

(** [lws_parse_uri]: [None] for a nonzero return, otherwise the protocol,
    address, port and path it found. *)
Definition uri_parser : Type :=
  string -> option (string * string * Z * string).

(** ** Data model *)

(** [struct winsize]. *)
Record winsize : Type := {
  ws_row : Z;
  ws_col : Z;
  ws_xpixel : Z;
  ws_ypixel : Z
}.

(** [(unsigned short) x]. *)
Definition to_unsigned_short (x : Z) : Z := x mod 2 ^ 16.

Inductive log_level : Type := LLL_ERR | LLL_WARN | LLL_NOTICE.

(** One constructor per logging statement of the file. *)
Inductive log_msg : Type :=
| msg_columns_not_exists (json : string)
| msg_rows_not_exists (json : string)
| msg_refuse_once
| msg_refuse_max_clients
| msg_refuse_illegal_path
| msg_refuse_origin
| msg_ws_established (count : Z)
| msg_write_data_to_ws
| msg_not_authenticated
| msg_write_input_failed
| msg_ioctl_failed
| msg_auth_failed (token : option string)
| msg_thread_create_failed (err : Z)
| msg_unknown_message_type (command : ascii)
| msg_sending_signal (pid : Z)
| msg_kill_failed (pid : Z)
| msg_process_exited (pid : Z)
| msg_ws_closed (count : Z)
| msg_exiting_once
| msg_forkpty_failed
| msg_started_process (pid : Z)
| msg_closing_stream (nread : Z).

(** What [free] and the libuv destructors are applied to. *)
Inductive resource : Type :=
| res_buffer
| res_pty_buffer
| res_loop
| res_read_buf.

Inductive event : Type :=
| ev_log (lvl : log_level) (m : log_msg)
| ev_lws_write (frame : string) (ret : Z)
| ev_lws_close_reason (status : Z)
| ev_lws_callback_on_writable
| ev_write (fd : Z) (data : string)
| ev_ioctl_TIOCSWINSZ (fd : Z) (size : winsize)
| ev_uv_thread_create (err : Z)
| ev_forkpty (pid : Z)
| ev_uv_read_start
| ev_uv_read_stop
| ev_kill (pid sig : Z)
| ev_waitpid (pid : Z)
| ev_close (fd : Z)
| ev_free (r : resource)
| ev_uv_stop
| ev_uv_mutex_destroy
| ev_uv_cond_destroy
| ev_uv_loop_close
| ev_exit (code : Z).

Definition trace : Type := list event.

(** ** [parse_window_size] *)

Section ParseWindowSize.

Variable J : json_c.

(** [bool parse_window_size(const char *json, struct winsize *size)]: the
    result, the contents of [*size] afterwards, and what was logged. *)
Definition parse_window_size (json : string) (size : winsize)
  : bool * winsize * trace :=
  let obj := json_tokener_parse J json in
  match json_object_object_get_ex J obj "columns" with
  | None => (false, size, [ev_log LLL_ERR (msg_columns_not_exists json)])
  | Some o =>
    let columns := json_object_get_int J o in
    match json_object_object_get_ex J obj "rows" with
    | None => (false, size, [ev_log LLL_ERR (msg_rows_not_exists json)])
    | Some o' =>
      let rows := json_object_get_int J o' in
      (true,
       {| ws_row := to_unsigned_short rows;
          ws_col := to_unsigned_short columns;
          ws_xpixel := 0;
          ws_ypixel := 0 |},
       [])
    end
  end.

End ParseWindowSize.

(** ** Server and client structures *)

(** [struct tty_server], the fields that [protocol.c] reads or writes.  The
    [clients] list holds the addresses of the registered [tty_client]
    structures, most recently inserted first. *)
Record tty_server : Type := {
  clients : list nat;
  client_count : Z;
  credential : option string;
  command : string;
  reconnect : Z;
  prefs_json : string;
  sig_code : Z;
  check_origin : bool;
  readonly : bool;
  once : bool;
  max_clients : Z
}.

Definition set_registry (s : tty_server) (l : list nat) (n : Z) : tty_server :=
  {| clients := l; client_count := n;
     credential := credential s; command := command s;
     reconnect := reconnect s; prefs_json := prefs_json s;
     sig_code := sig_code s; check_origin := check_origin s;
     readonly := readonly s; once := once s; max_clients := max_clients s |}.

(** [struct tty_client].  [buffer] stands for the pair
    [client->buffer]/[client->len]: the bytes received so far of the message
    being assembled.  [pty_buffer] holds the payload that [read_cb] copied
    behind the [LWS_PRE + 1] bytes of headroom. *)
Record tty_client : Type := {
  running : bool;
  initialized : bool;
  initial_cmd_index : Z;
  authenticated : bool;
  hostname : string;
  address : string;
  size : winsize;
  buffer : option string;
  pid : Z;
  pty : Z;
  state : pty_state;
  pty_buffer : option string;
  pty_len : Z
}.

Definition set_running (c : tty_client) (b : bool) : tty_client :=
  {| running := b; initialized := initialized c;
     initial_cmd_index := initial_cmd_index c;
     authenticated := authenticated c; hostname := hostname c;
     address := address c; size := size c; buffer := buffer c;
     pid := pid c; pty := pty c; state := state c;
     pty_buffer := pty_buffer c; pty_len := pty_len c |}.

Definition set_initialized (c : tty_client) (b : bool) : tty_client :=
  {| running := running c; initialized := b;
     initial_cmd_index := initial_cmd_index c;
     authenticated := authenticated c; hostname := hostname c;
     address := address c; size := size c; buffer := buffer c;
     pid := pid c; pty := pty c; state := state c;
     pty_buffer := pty_buffer c; pty_len := pty_len c |}.

Definition set_initial_cmd_index (c : tty_client) (i : Z) : tty_client :=
  {| running := running c; initialized := initialized c;
     initial_cmd_index := i;
     authenticated := authenticated c; hostname := hostname c;
     address := address c; size := size c; buffer := buffer c;
     pid := pid c; pty := pty c; state := state c;
     pty_buffer := pty_buffer c; pty_len := pty_len c |}.

Definition set_authenticated (c : tty_client) (b : bool) : tty_client :=
  {| running := running c; initialized := initialized c;
     initial_cmd_index := initial_cmd_index c;
     authenticated := b; hostname := hostname c;
     address := address c; size := size c; buffer := buffer c;
     pid := pid c; pty := pty c; state := state c;
     pty_buffer := pty_buffer c; pty_len := pty_len c |}.

Definition set_size (c : tty_client) (w : winsize) : tty_client :=
  {| running := running c; initialized := initialized c;
     initial_cmd_index := initial_cmd_index c;
     authenticated := authenticated c; hostname := hostname c;
     address := address c; size := w; buffer := buffer c;
     pid := pid c; pty := pty c; state := state c;
     pty_buffer := pty_buffer c; pty_len := pty_len c |}.

Definition set_buffer (c : tty_client) (b : option string) : tty_client :=
  {| running := running c; initialized := initialized c;
     initial_cmd_index := initial_cmd_index c;
     authenticated := authenticated c; hostname := hostname c;
     address := address c; size := size c; buffer := b;
     pid := pid c; pty := pty c; state := state c;
     pty_buffer := pty_buffer c; pty_len := pty_len c |}.

(** [client->pid = pid; client->pty = pty; client->running = true]. *)
Definition set_child (c : tty_client) (p fd : Z) : tty_client :=
  {| running := true; initialized := initialized c;
     initial_cmd_index := initial_cmd_index c;
     authenticated := authenticated c; hostname := hostname c;
     address := address c; size := size c; buffer := buffer c;
     pid := p; pty := fd; state := state c;
     pty_buffer := pty_buffer c; pty_len := pty_len c |}.

(** The slot shared by [read_cb] and the writeable callback:
    [client->state], [client->pty_buffer], [client->pty_len]. *)
Definition set_slot (c : tty_client) (st : pty_state) (b : option string)
  (n : Z) : tty_client :=
  {| running := running c; initialized := initialized c;
     initial_cmd_index := initial_cmd_index c;
     authenticated := authenticated c; hostname := hostname c;
     address := address c; size := size c; buffer := buffer c;
     pid := pid c; pty := pty c; state := st;
     pty_buffer := b; pty_len := n |}.

(** What the environment answers to the calls made during one callback. *)
Record env : Type := {
  gethostname : string;
  peer_hostname : string;
  peer_address : string;
  lws_write_ret : Z;
  write_ret : Z;
  ioctl_ret : Z;
  uv_thread_create_ret : Z;
  kill_ret : Z;
  waitpid_eintr : nat
}.

(** The request headers that the program asks libwebsockets for; a header
    that is absent has length zero. *)
Record headers : Type := {
  hdr_get_uri : string;
  hdr_origin : string;
  hdr_host : string
}.

(** ** C library functions used by the program *)

Definition char_code (c : ascii) : Z := Z.of_N (N_of_ascii c).

(** The terminator of a C string. *)
Definition NUL : ascii := "000"%char.

(** The C string that starts at the first byte of [s]: the bytes before the
    first terminator. *)
Fixpoint c_str (s : string) : string :=
  match s with
  | EmptyString => EmptyString
  | String c s' => if Ascii.eqb c NUL then EmptyString else String c (c_str s')
  end.

(** [strlen]. *)
Definition strlen (s : string) : Z := Z.of_nat (String.length (c_str s)).

(** [tolower] in the C locale. *)
Definition tolower (c : ascii) : ascii :=
  if (65 <=? char_code c) && (char_code c <=? 90)
  then ascii_of_N (N_of_ascii c + 32)
  else c.

(** [strcmp]: the difference of the first bytes that differ, zero when the
    terminator is reached on both sides. *)
Fixpoint strcmp (a b : string) : Z :=
  match a, b with
  | EmptyString, EmptyString => 0
  | EmptyString, String d _ => - char_code d
  | String c _, EmptyString => char_code c
  | String c a', String d b' =>
    if Ascii.eqb c d then
      if Ascii.eqb c NUL then 0 else strcmp a' b'
    else char_code c - char_code d
  end.

(** [strcasecmp]: [strcmp] on the lower-cased bytes. *)
Fixpoint strcasecmp (a b : string) : Z :=
  match a, b with
  | EmptyString, EmptyString => 0
  | EmptyString, String d _ => - char_code (tolower d)
  | String c _, EmptyString => char_code (tolower c)
  | String c a', String d b' =>
    if Ascii.eqb (tolower c) (tolower d) then
      if Ascii.eqb c NUL then 0 else strcasecmp a' b'
    else char_code (tolower c) - char_code (tolower d)
  end.

(** [sprintf("%s", s)]. *)
Definition sprintf_s (s : string) : string := c_str s.

(** [sprintf("%d", n)]. *)
Definition sprintf_d (n : Z) : string := NilZero.string_of_int (Z.to_int n).

(** [lws_hdr_total_length]: the number of bytes of the header. *)
Definition lws_hdr_total_length (value : string) : Z :=
  Z.of_nat (String.length value).

(** [lws_hdr_copy(wsi, dest, len, h)] for a header of contents [value]: the
    return value and the contents of [dest] afterwards.  It refuses ([-1])
    a header that does not fit with its terminator, and copies nothing for
    a header of length zero. *)
Definition lws_hdr_copy (value dest : string) (len : Z) : Z * string :=
  let toklen := lws_hdr_total_length value in
  if toklen >=? len then (-1, dest)
  else if toklen =? 0 then (0, dest)
  else (toklen, value).

(** The tail of a buffer: [p + 1]. *)
Definition advance (s : string) : string :=
  match s with
  | EmptyString => EmptyString
  | String _ t => t
  end.

(** ** The functions of [protocol.c] *)

(** The body of the [LIST_FOREACH] of [tty_client_remove]: unlink the first
    node whose address is [p]; the flag tells whether one was found. *)
Fixpoint list_remove (p : nat) (l : list nat) : list nat * bool :=
  match l with
  | [] => ([], false)
  | q :: l' =>
    if Nat.eqb q p then (l', true)
    else let '(r, found) := list_remove p l' in (q :: r, found)
  end.

(** [void tty_client_remove(struct tty_client *client)]. *)
Definition tty_client_remove (s : tty_server) (p : nat) : tty_server :=
  let '(l, found) := list_remove p (clients s) in
  if found then set_registry s l (client_count s - 1) else s.

Section Protocol.

Variable H : server_h.
Variable J : json_c.
Variable parse_uri : uri_parser.

(** [char initial_cmds[]]. *)
Definition initial_cmds : list ascii :=
  [SET_WINDOW_TITLE H; SET_RECONNECT H; SET_PREFERENCES H].

(** [sizeof(initial_cmds)]. *)
Definition sizeof_initial_cmds : Z := Z.of_nat (List.length initial_cmds).

(** [send_initial_message]: the bytes handed to [lws_write] ([n] bytes from
    [p]); the function returns what [lws_write] returns.  [None] when
    [index] is outside the array. *)
Definition send_initial_message (s : tty_server) (e : env) (index : Z)
  : option string :=
  if index <? 0 then None else
  match nth_error initial_cmds (Z.to_nat index) with
  | None => None
  | Some cmd =>
    Some
      (if Ascii.eqb cmd (SET_WINDOW_TITLE H) then
         String cmd
           (sprintf_s (command s) ++ " (" ++ sprintf_s (gethostname e) ++ ")")%string
       else if Ascii.eqb cmd (SET_RECONNECT H) then
         String cmd (sprintf_d (reconnect s))
       else if Ascii.eqb cmd (SET_PREFERENCES H) then
         String cmd (sprintf_s (prefs_json s))
       else EmptyString)
  end.

(** [bool check_host_origin(struct lws *wsi)]. *)
Definition check_host_origin (h : headers) : bool :=
  let origin_length := lws_hdr_total_length (hdr_origin h) in
  let '(len, buf) := lws_hdr_copy (hdr_origin h) EmptyString (origin_length + 1) in
  if len <=? 0 then false else
  match parse_uri buf with
  | None => false
  | Some (_, address, port, _) =>
    let buf :=
      if (port =? 80) || (port =? 443) then sprintf_s address
      else (sprintf_s address ++ ":" ++ sprintf_d port)%string in
    let host_length := lws_hdr_total_length (hdr_host h) in
    if negb (host_length =? strlen buf) then false else
    let '(len, host_buf) :=
      lws_hdr_copy (hdr_host h) EmptyString (host_length + 1) in
    (0 <? len) && (strcasecmp buf host_buf =? 0)
  end.

(** The buffer and loop releases under the label [cleanup] of
    [tty_client_destroy]. *)
Definition cleanup_trace (c : tty_client) : trace :=
  (match buffer c with Some _ => [ev_free res_buffer] | None => [] end) ++
  (match pty_buffer c with Some _ => [ev_free res_pty_buffer] | None => [] end) ++
  [ev_uv_stop; ev_uv_mutex_destroy; ev_uv_cond_destroy; ev_uv_loop_close;
   ev_free res_loop].

(** [void tty_client_destroy(struct tty_client *client)], for the client at
    address [p].  The [waitpid] loop is run once more than the number of
    times the environment interrupts it. *)
Definition tty_client_destroy (s : tty_server) (p : nat) (c : tty_client)
  (e : env) : tty_server * tty_client * trace :=
  if negb (running c) || (pid c <=? 0) then
    (tty_client_remove s p, c, cleanup_trace c)
  else
    let c' := set_running c false in
    (tty_client_remove s p, c',
     [ev_log LLL_NOTICE (msg_sending_signal (pid c));
      ev_kill (pid c) (sig_code s)] ++
     (if negb (kill_ret e =? 0)
      then [ev_log LLL_ERR (msg_kill_failed (pid c))] else []) ++
     repeat (ev_waitpid (pid c)) (S (waitpid_eintr e)) ++
     [ev_log LLL_NOTICE (msg_process_exited (pid c)); ev_close (pty c)] ++
     cleanup_trace c').

(** How one invocation of [read_cb] ends. *)
Inductive read_outcome : Type :=
| read_returns (c : tty_client) (t : trace)
| read_cond_wait  (** [uv_cond_wait]: the slot is [STATE_READY] *)
| read_continue.  (** [continue] with [client->mutex] still held *)

(** [read_cb(stream, nread, buf)] up to the first suspension: the function
    is followed until it returns, waits on the condition variable, or
    reaches [continue] (which takes it back to [uv_mutex_lock] on a mutex
    it already holds). *)
Definition read_cb (c : tty_client) (nread : Z) (buf : string)
  : read_outcome :=
  if negb (running c) then read_returns c []
  else if pty_state_eqb (state c) STATE_READY then read_cond_wait
  else if nread <=? 0 then
    if (nread =? UV_ENOBUFS) || (nread =? 0) then read_continue
    else
      read_returns (set_slot c STATE_READY None 0)
        ((if negb (nread =? UV_EOF)
          then [ev_log LLL_ERR (msg_closing_stream nread); ev_uv_read_stop]
          else []) ++ [ev_free res_read_buf])
  else
    read_returns
      (set_slot c STATE_READY (Some (substring 0 (Z.to_nat nread) buf)) nread)
      [ev_free res_read_buf].

(** [thread_cb] up to the call of [uv_run], in the process in which
    [forkpty] returns [child] ([-1] when it fails, otherwise the pid of the
    child) and stores [fd] in [pty]. *)
Definition thread_cb (c : tty_client) (child fd : Z) : tty_client * trace :=
  if child =? -1 then (c, [ev_forkpty child; ev_log LLL_ERR msg_forkpty_failed])
  else
    let c' := set_child c child fd in
    (c',
     [ev_forkpty child; ev_log LLL_NOTICE (msg_started_process child)] ++
     (if (0 <? ws_row (size c')) && (0 <? ws_col (size c'))
      then [ev_ioctl_TIOCSWINSZ (pty c') (size c')] else []) ++
     [ev_uv_read_start]).

(** ** [callback_tty] *)

(** The reasons that [callback_tty] distinguishes, with the arguments and
    the connection properties that the case reads: the request headers for
    the protocol filter; for [LWS_CALLBACK_RECEIVE] the [len] bytes at [in],
    [lws_remaining_packet_payload(wsi)] and [lws_is_final_fragment(wsi)]. *)
Inductive lws_callback_reasons : Type :=
| LWS_CALLBACK_FILTER_PROTOCOL_CONNECTION (h : headers)
| LWS_CALLBACK_ESTABLISHED
| LWS_CALLBACK_SERVER_WRITEABLE
| LWS_CALLBACK_RECEIVE (data : string) (remaining : Z) (final : bool)
| LWS_CALLBACK_CLOSED
| LWS_CALLBACK_OTHER.

(** The outcome of a callback: the value returned to libwebsockets, the
    server and client structures afterwards, and the calls made. *)
Definition result : Type := Z * tty_server * tty_client * trace.

(** Inside a [switch] case: [break] leaves the switch, [return] leaves the
    callback. *)
Inductive flow : Type :=
| Break (s : tty_server) (c : tty_client) (t : trace)
| Return (r : result).

(** [case LWS_CALLBACK_FILTER_PROTOCOL_CONNECTION]. *)
Definition filter_protocol_connection (s : tty_server) (h : headers)
  : Z * trace :=
  if once s && (0 <? client_count s) then
    (1, [ev_log LLL_WARN msg_refuse_once])
  else if (0 <? max_clients s) && (client_count s =? max_clients s) then
    (1, [ev_log LLL_WARN msg_refuse_max_clients])
  else
    let '(n, buf) := lws_hdr_copy (hdr_get_uri h) EmptyString 256 in
    if (n <=? 0) || negb (strcmp buf (WS_PATH H) =? 0) then
      (1, [ev_log LLL_WARN msg_refuse_illegal_path])
    else if check_origin s && negb (check_host_origin h) then
      (1, [ev_log LLL_WARN msg_refuse_origin])
    else (0, []).

(** [case LWS_CALLBACK_ESTABLISHED], for the client structure at address
    [p]; the fields that the case does not assign keep what [c] holds. *)
Definition established (s : tty_server) (p : nat) (c : tty_client) (e : env)
  : result :=
  let c' :=
    {| running := false; initialized := false; initial_cmd_index := 0;
       authenticated := false;
       hostname := peer_hostname e; address := peer_address e;
       size := size c; buffer := None; pid := pid c; pty := pty c;
       state := STATE_INIT; pty_buffer := pty_buffer c; pty_len := 0 |} in
  let s' := set_registry s (p :: clients s) (client_count s + 1) in
  (0, s', c', [ev_log LLL_NOTICE (msg_ws_established (client_count s'))]).

(** [case LWS_CALLBACK_SERVER_WRITEABLE].  [None]: the case reads
    [initial_cmds] outside its bounds or dereferences a null
    [pty_buffer]. *)
Definition server_writeable (s : tty_server) (p : nat) (c : tty_client)
  (e : env) : option result :=
  if negb (initialized c) then
    if initial_cmd_index c =? sizeof_initial_cmds then
      Some (0, s, set_initialized c true, [])
    else
      match send_initial_message s e (initial_cmd_index c) with
      | None => None
      | Some frame =>
        if lws_write_ret e <? 0 then
          Some (-1, tty_client_remove s p, c,
                [ev_lws_write frame (lws_write_ret e);
                 ev_lws_close_reason LWS_CLOSE_STATUS_UNEXPECTED_CONDITION])
        else
          Some (0, s, set_initial_cmd_index c (initial_cmd_index c + 1),
                [ev_lws_write frame (lws_write_ret e);
                 ev_lws_callback_on_writable])
      end
  else if negb (pty_state_eqb (state c) STATE_READY) then Some (0, s, c, [])
  else if pty_len c <=? 0 then
    Some (-1, tty_client_remove s p, c,
          [ev_lws_close_reason
             (if pty_len c =? 0 then LWS_CLOSE_STATUS_NORMAL
              else LWS_CLOSE_STATUS_UNEXPECTED_CONDITION)])
  else
    match pty_buffer c with
    | None => None
    | Some chunk =>
      let n := pty_len c + 1 in
      Some (0, s, set_slot c STATE_DONE None (pty_len c),
            [ev_lws_write
               (String (OUTPUT H) (substring 0 (Z.to_nat (pty_len c)) chunk))
               (lws_write_ret e)] ++
            (if lws_write_ret e mod 2 ^ 64 <? n
             then [ev_log LLL_ERR msg_write_data_to_ws] else []) ++
            [ev_free res_pty_buffer])
    end.

(** The assembly at the head of [case LWS_CALLBACK_RECEIVE]: the buffer
    after the [len] bytes at [in] have been copied or appended. *)
Definition assemble (c : tty_client) (data : string) : string :=
  match buffer c with
  | None => data
  | Some b => (b ++ data)%string
  end.

(** The block guarded by [server->credential != NULL] in [case JSON_DATA],
    up to the test of [client->authenticated]: the token of the assembled
    buffer [b] is compared with the credential [cred]. *)
Definition check_auth_token (c : tty_client) (cred b : string)
  : tty_client * trace :=
  let obj := json_tokener_parse J b in
  match json_object_object_get_ex J obj "AuthToken" with
  | None => (c, [])
  | Some o =>
    match json_object_get_string J o with
    | Some token =>
      if strcmp token cred =? 0 then (set_authenticated c true, [])
      else (c, [ev_log LLL_WARN (msg_auth_failed (Some token))])
    | None => (c, [ev_log LLL_WARN (msg_auth_failed None)])
    end
  end.

(** [case JSON_DATA] of the inner [switch], on the assembled buffer [b]. *)
Definition receive_json_data (s : tty_server) (p : nat) (c : tty_client)
  (e : env) (b : string) : flow :=
  if 0 <? pid c then Break s c []
  else
    let '(c1, t1) :=
      match credential s with
      | Some cred => check_auth_token c cred b
      | None => (c, [])
      end in
    if match credential s with Some _ => true | None => false end
       && negb (authenticated c1) then
      Return (-1, tty_client_remove s p, c1,
              t1 ++ [ev_lws_close_reason LWS_CLOSE_STATUS_POLICY_VIOLATION])
    else
      let err := uv_thread_create_ret e in
      if negb (err =? 0) then
        Return (1, s, c1,
                t1 ++ [ev_uv_thread_create err;
                       ev_log LLL_ERR (msg_thread_create_failed err)])
      else Break s c1 (t1 ++ [ev_uv_thread_create err]).

(** The inner [switch (command)] of [case LWS_CALLBACK_RECEIVE], on the
    assembled buffer [b] whose first byte is [cmd]; [c] already holds
    [b]. *)
Definition receive_switch (s : tty_server) (p : nat) (c : tty_client)
  (e : env) (cmd : ascii) (b : string) : flow :=
  if Ascii.eqb cmd (INPUT H) then
    if pty c =? 0 then Break s c []
    else if readonly s then Return (0, s, c, [])
    else if write_ret e =? -1 then
      Return (-1, tty_client_remove s p, c,
              [ev_write (pty c) (advance b);
               ev_log LLL_ERR msg_write_input_failed;
               ev_lws_close_reason LWS_CLOSE_STATUS_UNEXPECTED_CONDITION])
    else Break s c [ev_write (pty c) (advance b)]
  else if Ascii.eqb cmd (RESIZE_TERMINAL H) then
    let '(ok, sz, t) := parse_window_size J (advance b) (size c) in
    let c' := set_size c sz in
    if ok && (0 <? pty c) then
      Break s c'
        (t ++ [ev_ioctl_TIOCSWINSZ (pty c) sz] ++
         (if ioctl_ret e =? -1 then [ev_log LLL_ERR msg_ioctl_failed]
          else []))
    else Break s c' t
  else if Ascii.eqb cmd (JSON_DATA H) then receive_json_data s p c e b
  else Break s c [ev_log LLL_WARN (msg_unknown_message_type cmd)].

(** What follows the inner [switch]: a [return] inside it has left the
    callback; after a [break] the assembly buffer is released and the
    callback returns 0. *)
Definition after_switch (f : flow) : option result :=
  match f with
  | Return r => Some r
  | Break s' c' t =>
    match buffer c' with
    | Some _ => Some (0, s', set_buffer c' None, t ++ [ev_free res_buffer])
    | None => Some (0, s', c', t)
    end
  end.

(** [case LWS_CALLBACK_RECEIVE].  [None]: the assembled buffer is empty and
    [client->buffer[0]] reads outside it. *)
Definition receive (s : tty_server) (p : nat) (c : tty_client) (e : env)
  (data : string) (remaining : Z) (final : bool) : option result :=
  let b := assemble c data in
  let c := set_buffer c (Some b) in
  match b with
  | EmptyString => None
  | String cmd _ =>
    if match credential s with Some _ => true | None => false end
       && negb (authenticated c) && negb (Ascii.eqb cmd (JSON_DATA H)) then
      Some (1, s, c, [ev_log LLL_WARN msg_not_authenticated])
    else if (0 <? remaining) || negb final then Some (0, s, c, [])
    else
      after_switch (receive_switch s p c e cmd b)
  end.

(** [case LWS_CALLBACK_CLOSED]. *)
Definition closed (s : tty_server) (p : nat) (c : tty_client) (e : env)
  : result :=
  let '(s', c', t) := tty_client_destroy s p c e in
  (0, s', c',
   t ++ [ev_log LLL_NOTICE (msg_ws_closed (client_count s'))] ++
   (if once s' && (client_count s' =? 0)
    then [ev_log LLL_NOTICE msg_exiting_once; ev_exit 0] else [])).

(** [int callback_tty(wsi, reason, user, in, len)] with [user] the client
    structure at address [p]. *)
Definition callback_tty (s : tty_server) (p : nat) (c : tty_client)
  (reason : lws_callback_reasons) (e : env) : option result :=
  match reason with
  | LWS_CALLBACK_FILTER_PROTOCOL_CONNECTION h =>
    let '(r, t) := filter_protocol_connection s h in Some (r, s, c, t)
  | LWS_CALLBACK_ESTABLISHED => Some (established s p c e)
  | LWS_CALLBACK_SERVER_WRITEABLE => server_writeable s p c e
  | LWS_CALLBACK_RECEIVE data remaining final =>
    receive s p c e data remaining final
  | LWS_CALLBACK_CLOSED => Some (closed s p c e)
  | LWS_CALLBACK_OTHER => Some (0, s, c, [])
  end.

End Protocol.

(** ** A session as a sequence of steps

    After [LWS_CALLBACK_ESTABLISHED] a session is driven by writeable and
    receive callbacks on the service thread, by the start of a thread that
    [uv_thread_create] made, and by libuv calling [read_cb] on that thread.
    Each of them is taken as one atomic step. *)

Inductive input : Type :=
| in_writeable (e : env)
| in_receive (data : string) (remaining : Z) (final : bool) (e : env)
| in_thread (child fd : Z)
| in_read (nread : Z) (buf : string).

(** libwebsockets closes a connection whose callback returns nonzero. *)
Inductive status : Type :=
| st_open
| st_closed (ret : Z)
| st_undefined.

Record session : Type := {
  srv : tty_server;
  cli : tty_client;
  threads : nat;  (** threads created whose [thread_cb] has not yet run *)
  out : trace;
  stat : status
}.

(** The number of successful [uv_thread_create] calls in a trace. *)
Fixpoint started_threads (t : trace) : nat :=
  match t with
  | [] => O
  | ev_uv_thread_create err :: t' =>
    if err =? 0 then S (started_threads t') else started_threads t'
  | _ :: t' => started_threads t'
  end.

Definition after_callback (st : session) (r : option result) : session :=
  match r with
  | None =>
    {| srv := srv st; cli := cli st; threads := threads st; out := out st;
       stat := st_undefined |}
  | Some (ret, s, c, t) =>
    {| srv := s; cli := c;
       threads := (threads st + started_threads t)%nat;
       out := out st ++ t;
       stat := if ret =? 0 then st_open else st_closed ret |}
  end.

Section Session.

Variable H : server_h.
Variable J : json_c.
Variable parse_uri : uri_parser.
Variable p : nat.

Definition step (st : session) (i : input) : session :=
  match stat st with
  | st_open =>
    match i with
    | in_writeable e =>
      after_callback st
        (callback_tty H J parse_uri (srv st) p (cli st)
           LWS_CALLBACK_SERVER_WRITEABLE e)
    | in_receive data remaining final e =>
      after_callback st
        (callback_tty H J parse_uri (srv st) p (cli st)
           (LWS_CALLBACK_RECEIVE data remaining final) e)
    | in_thread child fd =>
      match threads st with
      | O => st
      | S n =>
        let '(c, t) := thread_cb (cli st) child fd in
        {| srv := srv st; cli := c; threads := n; out := out st ++ t;
           stat := st_open |}
      end
    | in_read nread buf =>
      match read_cb (cli st) nread buf with
      | read_returns c t =>
        {| srv := srv st; cli := c; threads := threads st;
           out := out st ++ t; stat := st_open |}
      | read_cond_wait | read_continue => st
      end
    end
  | _ => st
  end.

Definition run (st : session) (l : list input) : session :=
  fold_left step l st.

(** The session that [LWS_CALLBACK_ESTABLISHED] sets up in the user memory
    [c0] of the connection. *)
Definition session_start (s : tty_server) (c0 : tty_client) (e : env)
  : session :=
  after_callback
    {| srv := s; cli := c0; threads := O; out := []; stat := st_open |}
    (callback_tty H J parse_uri s p c0 LWS_CALLBACK_ESTABLISHED e).

End Session.

(** The frames passed to [lws_write], in order. *)
Fixpoint written_frames (t : trace) : list string :=
  match t with
  | [] => []
  | ev_lws_write f _ :: t' => f :: written_frames t'
  | _ :: t' => written_frames t'
  end.

(** The first byte of a frame, its tag. *)
Definition frame_tag (f : string) : option ascii :=
  match f with
  | EmptyString => None
  | String c _ => Some c
  end.

(** Counting the calls of one kind in a trace. *)
Definition count_events (f : event -> bool) (t : trace) : nat :=
  List.length (filter f t).

Definition is_kill (ev : event) : bool :=
  match ev with ev_kill _ _ => true | _ => false end.
Definition is_waitpid (ev : event) : bool :=
  match ev with ev_waitpid _ => true | _ => false end.
Definition is_close (ev : event) : bool :=
  match ev with ev_close _ => true | _ => false end.
Definition is_free_of (r : resource) (ev : event) : bool :=
  match ev, r with
  | ev_free res_buffer, res_buffer
  | ev_free res_pty_buffer, res_pty_buffer
  | ev_free res_loop, res_loop
  | ev_free res_read_buf, res_read_buf => true
  | _, _ => false
  end.
Definition is_loop_close (ev : event) : bool :=
  match ev with ev_uv_loop_close => true | _ => false end.
Definition is_thread_create (ev : event) : bool :=
  match ev with ev_uv_thread_create _ => true | _ => false end.
Definition is_forkpty (ev : event) : bool :=
  match ev with ev_forkpty _ => true | _ => false end.

(** ** Concrete instances

    Values for the parameters, on which the model can be evaluated: one
    choice of tags and path, a reader for flat JSON objects whose members
    are integers or strings without escapes, and a URI splitter. *)

Module Sample.

Definition h : server_h :=
  {| INPUT := "0"; RESIZE_TERMINAL := "1"; JSON_DATA := "{";
     OUTPUT := "0"; SET_WINDOW_TITLE := "1"; SET_RECONNECT := "3";
     SET_PREFERENCES := "2"; WS_PATH := "/ws" |}.

(** The double quote. *)
Definition dq : ascii := "034"%char.

Definition quoted (s : string) : string :=
  String dq (s ++ String dq EmptyString).

(** A member of an object is an integer or a string. *)
Definition member : Type := (Z + string)%type.

Inductive value : Type :=
| v_int (n : Z)
| v_string (s : string)
| v_object (members : list (string * member)).

Definition of_member (m : member) : value :=
  match m with
  | inl n => v_int n
  | inr s => v_string s
  end.

(** Reads up to the closing quote. *)
Fixpoint read_quoted (s : string) : option (string * string) :=
  match s with
  | EmptyString => None
  | String c s' =>
    if Ascii.eqb c dq then Some (EmptyString, s')
    else
      match read_quoted s' with
      | Some (k, r) => Some (String c k, r)
      | None => None
      end
  end.

Definition digit (c : ascii) : option Z :=
  let n := char_code c in
  if (48 <=? n) && (n <=? 57) then Some (n - 48) else None.

(** Reads decimal digits; the flag tells whether there was one. *)
Fixpoint read_digits (s : string) (acc : Z) (any : bool)
  : Z * bool * string :=
  match s with
  | EmptyString => (acc, any, s)
  | String c s' =>
    match digit c with
    | Some d => read_digits s' (10 * acc + d) true
    | None => (acc, any, s)
    end
  end.

Definition read_int (s : string) : option (Z * string) :=
  match s with
  | String "-" s' =>
    let '(n, any, r) := read_digits s' 0 false in
    if any then Some (- n, r) else None
  | _ =>
    let '(n, any, r) := read_digits s 0 false in
    if any then Some (n, r) else None
  end.

Definition read_value (s : string) : option (member * string) :=
  match s with
  | String c s' =>
    if Ascii.eqb c dq then
      match read_quoted s' with
      | Some (v, r) => Some (inr v, r)
      | None => None
      end
    else
      match read_int s with
      | Some (n, r) => Some (inl n, r)
      | None => None
      end
  | EmptyString => None
  end.

Fixpoint read_members (fuel : nat) (s : string)
  : option (list (string * member)) :=
  match fuel with
  | O => None
  | S fuel' =>
    match s with
    | String c s1 =>
      if Ascii.eqb c dq then
        match read_quoted s1 with
        | Some (k, String ":" s2) =>
          match read_value s2 with
          | Some (v, String "," s3) =>
            match read_members fuel' s3 with
            | Some ms => Some ((k, v) :: ms)
            | None => None
            end
          | Some (v, String "}" _) => Some [(k, v)]
          | _ => None
          end
        | _ => None
        end
      else None
    | EmptyString => None
    end
  end.

Definition tokener_parse (s : string) : option value :=
  match s with
  | String "{" (String "}" _) => Some (v_object [])
  | String "{" s' =>
    match read_members (String.length s') s' with
    | Some ms => Some (v_object ms)
    | None => None
    end
  | _ => None
  end.

Fixpoint lookup (k : string) (ms : list (string * member)) : option value :=
  match ms with
  | [] => None
  | (k', v) :: ms' =>
    if String.eqb k k' then Some (of_member v) else lookup k ms'
  end.

Definition object_get_ex (o : option value) (k : string)
  : option (option value) :=
  match o with
  | Some (v_object ms) =>
    match lookup k ms with
    | Some v => Some (Some v)
    | None => None
    end
  | _ => None
  end.

(** Integers saturate to the range of [int32_t]; anything else is [0]. *)
Definition get_int (o : option value) : Z :=
  match o with
  | Some (v_int n) => Z.max (- 2 ^ 31) (Z.min (2 ^ 31 - 1) n)
  | _ => 0
  end.

Definition get_string (o : option value) : option string :=
  match o with
  | Some (v_string s) => Some s
  | Some (v_int n) => Some (sprintf_d n)
  | _ => None
  end.

Definition json : json_c :=
  {| json_object := value;
     json_tokener_parse := tokener_parse;
     json_object_object_get_ex := object_get_ex;
     json_object_get_int := get_int;
     json_object_get_string := get_string |}.

(** Splits [s] at the first occurrence of the byte [c]. *)
Fixpoint split_at (c : ascii) (s : string) : string * option string :=
  match s with
  | EmptyString => (EmptyString, None)
  | String d s' =>
    if Ascii.eqb d c then (EmptyString, Some s')
    else let '(a, r) := split_at c s' in (String d a, r)
  end.

(** Splits [scheme://address[:port][/path]]; the port defaults to 80, and
    to 443 for the schemes [https] and [wss]. *)
Definition parse_uri : uri_parser := fun s =>
  match split_at ":" s with
  | (prot, Some (String "/" (String "/" rest))) =>
    let '(authority, path) := split_at "/" rest in
    let path := match path with Some q => q | None => "/"%string end in
    let default :=
      if String.eqb prot "https" || String.eqb prot "wss" then 443 else 80 in
    match split_at ":" authority with
    | (address, Some digits) =>
      let '(n, _, _) := read_digits digits 0 false in
      Some (prot, address, n, path)
    | (address, None) => Some (prot, address, default, path)
    end
  | _ => None
  end.

Definition server : tty_server :=
  {| clients := []; client_count := 0; credential := None;
     command := "bash"; reconnect := 10; prefs_json := "{}";
     sig_code := 1; check_origin := false; readonly := false;
     once := false; max_clients := 0 |}.

Definition with_credential (s : tty_server) (cred : option string)
  : tty_server :=
  {| clients := clients s; client_count := client_count s;
     credential := cred; command := command s;
     reconnect := reconnect s; prefs_json := prefs_json s;
     sig_code := sig_code s; check_origin := check_origin s;
     readonly := readonly s; once := once s; max_clients := max_clients s |}.

Definition with_readonly (s : tty_server) (b : bool) : tty_server :=
  {| clients := clients s; client_count := client_count s;
     credential := credential s; command := command s;
     reconnect := reconnect s; prefs_json := prefs_json s;
     sig_code := sig_code s; check_origin := check_origin s;
     readonly := b; once := once s; max_clients := max_clients s |}.

Definition with_check_origin (s : tty_server) (b : bool) : tty_server :=
  {| clients := clients s; client_count := client_count s;
     credential := credential s; command := command s;
     reconnect := reconnect s; prefs_json := prefs_json s;
     sig_code := sig_code s; check_origin := b;
     readonly := readonly s; once := once s; max_clients := max_clients s |}.

(** The user memory of a new connection, filled with zeroes. *)
Definition zero_client : tty_client :=
  {| running := false; initialized := false; initial_cmd_index := 0;
     authenticated := false; hostname := EmptyString;
     address := EmptyString;
     size := {| ws_row := 0; ws_col := 0; ws_xpixel := 0; ws_ypixel := 0 |};
     buffer := None; pid := 0; pty := 0; state := STATE_INIT;
     pty_buffer := None; pty_len := 0 |}.

(** Every call succeeds. *)
Definition ok : env :=
  {| gethostname := "host"; peer_hostname := "peer";
     peer_address := "10.0.0.2"; lws_write_ret := 4096; write_ret := 1;
     ioctl_ret := 0; uv_thread_create_ret := 0; kill_ret := 0;
     waitpid_eintr := O |}.

(** The session at address [7] after the handshake, registered with the
    server [s], whose child [42] runs on descriptor [5]. *)
Definition running_client : tty_client :=
  {| running := true; initialized := true; initial_cmd_index := 3;
     authenticated := false; hostname := "peer"; address := "10.0.0.2";
     size := {| ws_row := 24; ws_col := 80; ws_xpixel := 0; ws_ypixel := 0 |};
     buffer := None; pid := 42; pty := 5; state := STATE_INIT;
     pty_buffer := None; pty_len := 0 |}.

Definition registered (s : tty_server) : tty_server :=
  set_registry s [7%nat] 1.

(** The frame [RESIZE_TERMINAL {"columns":132,"rows":40}]. *)
Definition resize_frame : string :=
  String (RESIZE_TERMINAL h)
    ("{" ++ quoted "columns" ++ ":132," ++ quoted "rows" ++ ":40}").

(** The frame [JSON_DATA] with [{"AuthToken":token}]. *)
Definition auth_frame (token : string) : string :=
  ("{" ++ quoted "AuthToken" ++ ":" ++ quoted token ++ "}")%string.

End Sample.

(** ** Notions used to state the properties *)

(** No NUL byte occurs in [s]. *)
Fixpoint no_nul (s : string) : Prop :=
  match s with
  | EmptyString => True
  | String c s' => c <> NUL /\ no_nul s'
  end.

(** [s] with every byte lower-cased. *)
Fixpoint lowercase (s : string) : string :=
  match s with
  | EmptyString => EmptyString
  | String c s' => String (tolower c) (lowercase s')
  end.

(** Equality of two strings without regard to case. *)
Definition equal_ignoring_case (a b : string) : Prop :=
  lowercase a = lowercase b.

(** The admission rule in the words of the specification.  The host and
    port of the [Origin] header, the port left out when it is 80 or 443;
    there is none when the header is absent or is not a URI. *)
Definition origin_host_port (parse_uri : uri_parser) (h : headers)
  : option string :=
  match hdr_origin h with
  | EmptyString => None
  | _ =>
    match parse_uri (hdr_origin h) with
    | Some (_, address, port, _) =>
      Some (if (port =? 80) || (port =? 443) then c_str address
            else (c_str address ++ ":" ++ sprintf_d port)%string)
    | None => None
    end
  end.

(** The [Origin] host and port agree with the [Host] header that the
    request carries. *)
Definition origin_matches_host (parse_uri : uri_parser) (h : headers)
  : Prop :=
  exists hp,
    origin_host_port parse_uri h = Some hp /\
    hdr_host h <> EmptyString /\
    equal_ignoring_case hp (hdr_host h).

(** The four reasons for which the specification refuses an upgrade. *)
Definition admission_refused (H : server_h) (parse_uri : uri_parser)
  (s : tty_server) (h : headers) : Prop :=
  (once s = true /\ client_count s >= 1) \/
  (max_clients s > 0 /\ client_count s = max_clients s) \/
  hdr_get_uri h <> WS_PATH H \/
  (check_origin s = true /\ ~ origin_matches_host parse_uri h).

(** The message [b] carries an [AuthToken] whose string equals the
    credential [cred] (as C strings). *)
Definition token_matches (J : json_c) (cred b : string) : Prop :=
  exists o token,
    json_object_object_get_ex J (json_tokener_parse J b) "AuthToken" = Some o /\
    json_object_get_string J o = Some token /\
    c_str token = c_str cred.

(** Two calls of [tty_client_destroy] in a row on the same client. *)
Definition destroy_twice (s : tty_server) (p : nat) (c : tty_client)
  (e1 e2 : env) : tty_server * tty_client * trace :=
  let '(s1, c1, t1) := tty_client_destroy s p c e1 in
  let '(s2, c2, t2) := tty_client_destroy s1 p c1 e2 in
  (s2, c2, t1 ++ t2).

(** The test that guards [case LWS_CALLBACK_RECEIVE] against clients that
    have not authenticated lets the client through. *)
Definition may_send (s : tty_server) (c : tty_client) : Prop :=
  credential s = None \/ authenticated c = true.

(** A callback keeps the connection when it returns zero. *)
Definition keeps_connection (r : option result) : Prop :=
  exists s c t, r = Some (0, s, c, t).

(** A complete message with tag [cmd] arrives on an empty assembly buffer
    and the callback keeps the connection. *)
Definition message_keeps_connection (H : server_h) (J : json_c)
  (s : tty_server) (p : nat) (c : tty_client) (e : env) (cmd : ascii)
  (rest : string) : Prop :=
  keeps_connection (receive H J s p c e (String cmd rest) 0 true).

(** Every message with an unknown tag is dropped and the session goes on,
    whatever the state of authentication. *)
Definition unknown_tags_never_close (H : server_h) (J : json_c) : Prop :=
  forall s p c e cmd rest,
    buffer c = None ->
    cmd <> INPUT H -> cmd <> RESIZE_TERMINAL H -> cmd <> JSON_DATA H ->
    message_keeps_connection H J s p c e cmd rest.

(** Every [INPUT] message that arrives while the PTY handle is zero is
    dropped and the session goes on. *)
Definition early_input_never_closes (H : server_h) (J : json_c) : Prop :=
  forall s p c e rest,
    buffer c = None -> pty c = 0 ->
    message_keeps_connection H J s p c e (INPUT H) rest.

(** A second call of [tty_client_destroy] changes nothing that can be
    observed: the same structures and the same calls as after one call. *)
Definition destroy_idempotent : Prop :=
  forall s p c e1 e2,
    destroy_twice s p c e1 e2 = tty_client_destroy s p c e1.

(** The state of the handshake along a session: the frames written so far
    are the first [k] initial messages in the order of [initial_cmds],
    followed by [m] [OUTPUT] frames; no [OUTPUT] frame is written before
    [initialized] is set, which needs the index to be at the end of the
    list; the index counts the initial messages written, except after the
    failed write that closes the session. *)
Definition handshake_inv (H : server_h) (st : session) : Prop :=
  exists k m : nat,
    (k <= 3)%nat /\
    map frame_tag (written_frames (out st)) =
      map Some (firstn k (initial_cmds H)) ++ repeat (Some (OUTPUT H)) m /\
    (initialized (cli st) = false -> m = O) /\
    (initialized (cli st) = true -> initial_cmd_index (cli st) = 3) /\
    (initial_cmd_index (cli st) = Z.of_nat k \/
     (stat st <> st_open /\ Z.of_nat k = initial_cmd_index (cli st) + 1)).

(** The calls that start a child: the creation of the thread that runs
    [thread_cb], and [forkpty] in that thread. *)
Definition spawn_event (ev : event) : bool :=
  is_thread_create ev || is_forkpty ev.

Definition spawns (t : trace) : bool := existsb spawn_event t.

(** Only logging. *)
Definition is_log (ev : event) : bool :=
  match ev with ev_log _ _ => true | _ => false end.

(** The input [i], arriving in the state [st], completes a [JSON_DATA]
    message whose token equals the credential. *)
Definition auth_received (H : server_h) (J : json_c) (cred : string)
  (st : session) (i : input) : Prop :=
  match i with
  | in_receive data remaining final e =>
    (exists rest, assemble (cli st) data = String (JSON_DATA H) rest) /\
    remaining <= 0 /\ final = true /\
    token_matches J cred (assemble (cli st) data)
  | _ => False
  end.

(** Something has been done towards a child: the client is marked
    authenticated, a thread is waiting to run [thread_cb], or a spawning
    call has been made. *)
Definition armed (st : session) : Prop :=
  authenticated (cli st) = true \/ (0 < threads st)%nat \/
  spawns (out st) = true.

(** Every complete [JSON_DATA] message whose token does not equal the
    credential ends the session with a policy violation. *)
Definition unmatched_token_always_closes (H : server_h) (J : json_c) : Prop :=
  forall s p c e cred rest,
    credential s = Some cred -> buffer c = None ->
    ~ token_matches J cred (String (JSON_DATA H) rest) ->
    exists c' t,
      receive H J s p c e (String (JSON_DATA H) rest) 0 true =
        Some (-1, tty_client_remove s p, c', t) /\
      In (ev_lws_close_reason LWS_CLOSE_STATUS_POLICY_VIOLATION) t.

(** The registry counter agrees with the registry list. *)
Definition registry_consistent (s : tty_server) : Prop :=
  client_count s = Z.of_nat (List.length (clients s)).

Definition is_close_reason (ev : event) : bool :=
  match ev with ev_lws_close_reason _ => true | _ => false end.

Definition is_exit (ev : event) : bool :=
  match ev with ev_exit _ => true | _ => false end.

(** A slot that is published with a positive length holds a chunk. *)
Definition slot_inv (c : tty_client) : Prop :=
  state c = STATE_READY -> 0 < pty_len c -> pty_buffer c <> None.

(** Every receive callback delivers at least one byte. *)
Definition delivers_bytes (i : input) : Prop :=
  match i with
  | in_receive data _ _ _ => data <> EmptyString
  | _ => True
  end.

(** One complete message per payload, with the given tag. *)
Definition messages (tag : ascii) (e : env) (payloads : list string)
  : list input :=
  map (fun d => in_receive (String tag d) 0 true e) payloads.

(** libuv reads [nread] bytes into [buf] and the service thread then gets a
    writeable callback, once per element. *)
Definition relay (e : env) (reads : list (Z * string)) : list input :=
  flat_map (fun r => [in_read (fst r) (snd r); in_writeable e]) reads.

(** How a callback ends a session: it returns [-1] after it has removed the
    client from the registry and set one close reason, which is 1000, 1008
    or 1011; or it returns 0 or 1, and has then neither touched the registry
    nor set a close reason. *)
Definition close_discipline (s : tty_server) (p : nat) (r : result) : Prop :=
  let '(ret, s', _, t) := r in
  (ret = -1 /\ s' = tty_client_remove s p /\
   count_events is_close_reason t = 1%nat /\
   exists code,
     In (ev_lws_close_reason code) t /\
     (code = 1000 \/ code = 1008 \/ code = 1011)) \/
  ((ret = 0 \/ ret = 1) /\ s' = s /\
   count_events is_close_reason t = O).

(** The session can relay PTY output: it is open, the handshake is over,
    the child runs, and the slot is free. *)
Definition relaying (st : session) : Prop :=
  stat st = st_open /\ initialized (cli st) = true /\
  running (cli st) = true /\ state (cli st) <> STATE_READY.

(** The [case] labels of the [switch] in [send_initial_message] are
    pairwise different. *)
Definition server_tags_distinct (H : server_h) : Prop :=
  SET_WINDOW_TITLE H <> SET_RECONNECT H /\
  SET_WINDOW_TITLE H <> SET_PREFERENCES H /\
  SET_RECONNECT H <> SET_PREFERENCES H.

Definition is_pty_write (ev : event) : bool :=
  match ev with ev_write _ _ => true | _ => false end.

(** * Properties *)

(** ** C strings *)

Lemma char_code_inj (c d : ascii) : char_code c = char_code d -> c = d.
Proof.
  unfold char_code. intros E. apply N2Z.inj in E.
  rewrite <- (ascii_N_embedding c), <- (ascii_N_embedding d).
  now rewrite E.
Qed.

Lemma char_code_NUL (c : ascii) : char_code c = 0 -> c = NUL.
Proof. intros E. apply char_code_inj. exact E. Qed.

Lemma strcmp_zero_iff (a b : string) : strcmp a b = 0 <-> c_str a = c_str b.
Proof.
  revert b. induction a as [|c a IH]; intros [|d b]; simpl.
  - tauto.
  - destruct (Ascii.eqb_spec d NUL) as [->|Hd].
    + split; reflexivity.
    + split; [intros E|discriminate].
      exfalso. apply Hd, char_code_NUL. lia.
  - destruct (Ascii.eqb_spec c NUL) as [->|Hc].
    + split; reflexivity.
    + split; [intros E|discriminate].
      exfalso. apply Hc, char_code_NUL. lia.
  - destruct (Ascii.eqb_spec c d) as [->|Hcd].
    + destruct (Ascii.eqb_spec d NUL) as [->|Hd].
      * split; reflexivity.
      * rewrite IH. split; [intros ->; reflexivity|intros E; now inversion E].
    + split.
      * intros E. exfalso. apply Hcd, char_code_inj. lia.
      * destruct (Ascii.eqb_spec c NUL) as [->|Hc];
          destruct (Ascii.eqb_spec d NUL) as [->|Hd];
          intros E; try discriminate; try congruence.
  Qed.

Lemma c_str_no_nul (s : string) : no_nul s -> c_str s = s.
Proof.
  induction s as [|c s IH]; simpl; [reflexivity|].
  intros [Hc Hs]. destruct (Ascii.eqb_spec c NUL); [contradiction|].
  now rewrite IH.
Qed.

Lemma no_nul_c_str (s : string) : no_nul (c_str s).
Proof.
  induction s as [|c s IH]; simpl; [exact I|].
  destruct (Ascii.eqb_spec c NUL); simpl; auto.
Qed.

Lemma no_nul_append (a b : string) :
  no_nul a -> no_nul b -> no_nul (a ++ b).
Proof.
  induction a as [|c a IH]; simpl; [tauto|].
  intros [Hc Ha] Hb. split; auto.
Qed.

Lemma c_str_length_le (s : string) :
  (String.length (c_str s) <= String.length s)%nat.
Proof.
  induction s as [|c s IH]; simpl; [lia|].
  destruct (Ascii.eqb c NUL); simpl; lia.
Qed.

Lemma c_str_full_length (s : string) :
  String.length (c_str s) = String.length s -> no_nul s.
Proof.
  induction s as [|c s IH]; simpl; [tauto|].
  destruct (Ascii.eqb_spec c NUL) as [->|Hc]; simpl; [discriminate|].
  intros E. split; [exact Hc|apply IH; lia].
Qed.

Lemma strlen_no_nul (s : string) :
  no_nul s -> strlen s = Z.of_nat (String.length s).
Proof. intros Hs. unfold strlen. now rewrite c_str_no_nul. Qed.

(** ** Window size *)

Lemma to_unsigned_short_range (x : Z) : 0 <= to_unsigned_short x < 65536.
Proof. unfold to_unsigned_short. apply Z.mod_pos_bound. reflexivity. Qed.

(** C9.  [parse_window_size] returns [true] whenever the object has both a
    ["columns"] and a ["rows"] member, whatever integers they hold, and then
    stores each integer modulo [2^16] in the 16-bit fields (an integer [-1]
    is stored as [65535]); when either member is missing it returns [false]
    and leaves the stored window size as it was. *)
Theorem parse_window_size_wraps (J : json_c) (json : string) (sz : winsize) :
  let obj := json_tokener_parse J json in
  (forall oc orow,
     json_object_object_get_ex J obj "columns" = Some oc ->
     json_object_object_get_ex J obj "rows" = Some orow ->
     let '(ok, sz', _) := parse_window_size J json sz in
     ok = true /\
     ws_col sz' = json_object_get_int J oc mod 2 ^ 16 /\
     ws_row sz' = json_object_get_int J orow mod 2 ^ 16 /\
     0 <= ws_col sz' < 2 ^ 16 /\ 0 <= ws_row sz' < 2 ^ 16 /\
     (json_object_get_int J oc = -1 -> ws_col sz' = 65535) /\
     (json_object_get_int J orow = -1 -> ws_row sz' = 65535)) /\
  (json_object_object_get_ex J obj "columns" = None \/
   json_object_object_get_ex J obj "rows" = None ->
   let '(ok, sz', _) := parse_window_size J json sz in
   ok = false /\ sz' = sz).
Proof.
  intros obj. unfold parse_window_size. fold obj. split.
  - intros oc orow -> ->. cbn [ws_col ws_row].
    pose proof (to_unsigned_short_range (json_object_get_int J oc)).
    pose proof (to_unsigned_short_range (json_object_get_int J orow)).
    unfold to_unsigned_short in *.
    repeat split; try lia; intros ->; reflexivity.
  - intros [E|E].
    + rewrite E. split; reflexivity.
    + destruct (json_object_object_get_ex J obj "columns");
        [rewrite E|]; split; reflexivity.
Qed.

(** The frame [{"columns":-1,"rows":40}] read with the sample reader: the
    columns are stored as 65535. *)
Lemma parse_window_size_wraps_witness :
  let json :=
    ("{" ++ Sample.quoted "columns" ++ ":-1," ++ Sample.quoted "rows" ++ ":40}")%string in
  let '(ok, sz', _) :=
    parse_window_size Sample.json json (size Sample.zero_client) in
  ok = true /\ ws_col sz' = 65535 /\ ws_row sz' = 40.
Proof.
  intros json.
  pose proof
    (proj1 (parse_window_size_wraps Sample.json json (size Sample.zero_client))
       (Some (Sample.v_int (-1))) (Some (Sample.v_int 40))
       eq_refl eq_refl) as W.
  destruct (parse_window_size Sample.json json (size Sample.zero_client))
    as [[ok sz'] t].
  destruct W as (Hok & Hc & Hr & _ & _ & Hm & _).
  split; [exact Hok|]. split; [apply Hm; reflexivity|].
  rewrite Hr. reflexivity.
Defined.

(** ** Admission *)

Lemma tolower_NUL (c : ascii) : tolower c = NUL -> c = NUL.
Proof.
  destruct c as [[] [] [] [] [] [] [] []]; vm_compute; congruence.
Qed.

Lemma lowercase_length (s : string) :
  String.length (lowercase s) = String.length s.
Proof. induction s; simpl; congruence. Qed.

Lemma lowercase_no_nul (s : string) : no_nul (lowercase s) -> no_nul s.
Proof.
  induction s as [|c s IH]; simpl; [tauto|].
  intros [Hc Hs]. split; [|auto].
  intros ->. apply Hc. reflexivity.
Qed.

Lemma no_nul_lowercase (s : string) : no_nul s -> no_nul (lowercase s).
Proof.
  induction s as [|c s IH]; simpl; [tauto|].
  intros [Hc Hs]. split; [|auto].
  intros E. apply Hc, tolower_NUL, E.
Qed.

Lemma strcasecmp_zero_iff (a b : string) :
  strcasecmp a b = 0 <-> lowercase (c_str a) = lowercase (c_str b).
Proof.
  revert b. induction a as [|c a IH]; intros [|d b]; simpl.
  - tauto.
  - destruct (Ascii.eqb_spec d NUL) as [->|Hd]; simpl.
    + split; reflexivity.
    + split; [intros E|discriminate].
      exfalso. apply Hd, tolower_NUL, char_code_NUL. lia.
  - destruct (Ascii.eqb_spec c NUL) as [->|Hc]; simpl.
    + split; reflexivity.
    + split; [intros E|discriminate].
      exfalso. apply Hc, tolower_NUL, char_code_NUL. lia.
  - destruct (Ascii.eqb_spec (tolower c) (tolower d)) as [E|E].
    + destruct (Ascii.eqb_spec c NUL) as [->|Hc].
      * symmetry in E. apply tolower_NUL in E. subst d.
        split; reflexivity.
      * destruct (Ascii.eqb_spec d NUL) as [->|Hd].
        { exfalso. apply Hc, tolower_NUL, E. }
        simpl. rewrite IH, E.
        split; [intros ->; reflexivity|intros E'; now inversion E'].
    + split.
      * intros E'. exfalso. apply E, char_code_inj. lia.
      * destruct (Ascii.eqb_spec c NUL) as [->|Hc];
          destruct (Ascii.eqb_spec d NUL) as [->|Hd]; simpl;
          intros E'; try discriminate; try (now elim E).
        inversion E'. contradiction.
Qed.

Lemma no_nul_string_of_uint (d : Decimal.uint) :
  no_nul (NilEmpty.string_of_uint d).
Proof.
  induction d; simpl; try exact I; (split; [discriminate|assumption]).
Qed.

Lemma no_nul_sprintf_d (n : Z) : no_nul (sprintf_d n).
Proof.
  unfold sprintf_d, NilZero.string_of_int.
  destruct (Z.to_int n) as [d|d]; simpl.
  - destruct d; simpl; try (split; [discriminate|]);
      try apply no_nul_string_of_uint; exact I.
  - split; [discriminate|].
    destruct d; simpl; try (split; [discriminate|]);
      try apply no_nul_string_of_uint; exact I.
Qed.

(** With a destination of [length + 1] bytes the copy always succeeds. *)
Lemma lws_hdr_copy_fits (v : string) :
  lws_hdr_copy v EmptyString (lws_hdr_total_length v + 1) =
  (lws_hdr_total_length v, v).
Proof.
  unfold lws_hdr_copy.
  destruct (Z.geb_spec (lws_hdr_total_length v) (lws_hdr_total_length v + 1));
    [lia|].
  destruct (Z.eqb_spec (lws_hdr_total_length v) 0) as [E|E]; [|reflexivity].
  rewrite E. unfold lws_hdr_total_length in E.
  destruct v; [reflexivity|simpl in E; lia].
Qed.

(** The comparison of the formatted origin [buf] with the [Host] header at
    the end of [check_host_origin]. *)
Lemma host_comparison (buf host : string) :
  no_nul buf ->
  (lws_hdr_total_length host = strlen buf /\
   0 < lws_hdr_total_length host /\
   strcasecmp buf host = 0) <->
  (host <> EmptyString /\ equal_ignoring_case buf host).
Proof.
  intros Hbuf. unfold equal_ignoring_case, lws_hdr_total_length.
  rewrite strcasecmp_zero_iff, (strlen_no_nul _ Hbuf), (c_str_no_nul _ Hbuf).
  split.
  - intros (Hlen & Hpos & Heq).
    split; [intros ->; simpl in Hpos; lia|].
    assert (no_nul host) as Hh.
    { apply c_str_full_length.
      pose proof (f_equal String.length Heq) as L.
      rewrite !lowercase_length in L. lia. }
    now rewrite (c_str_no_nul _ Hh) in Heq.
  - intros (Hne & Heq).
    assert (no_nul host) as Hh.
    { apply lowercase_no_nul. rewrite <- Heq. now apply no_nul_lowercase. }
    rewrite (c_str_no_nul _ Hh).
    pose proof (f_equal String.length Heq) as L.
    rewrite !lowercase_length in L.
    repeat split; [lia| |exact Heq].
    destruct host; [congruence|simpl; lia].
Qed.

(** [check_host_origin] decides [origin_matches_host]. *)
Lemma check_host_origin_spec (parse_uri : uri_parser) (h : headers) :
  check_host_origin parse_uri h = true <-> origin_matches_host parse_uri h.
Proof.
  unfold check_host_origin, origin_matches_host, origin_host_port.
  rewrite lws_hdr_copy_fits.
  destruct (hdr_origin h) as [|a o] eqn:Ho.
  { simpl. split; [discriminate|intros (hp & E & _); discriminate]. }
  rewrite <- Ho.
  destruct (Z.leb_spec (lws_hdr_total_length (hdr_origin h)) 0) as [L|L].
  { rewrite Ho in L. unfold lws_hdr_total_length in L. simpl in L. lia. }
  destruct (parse_uri (hdr_origin h)) as [[[[prot address] port] path]|].
  2: { split; [discriminate|intros (hp & E & _); discriminate]. }
  rewrite lws_hdr_copy_fits.
  set (buf := if (port =? 80) || (port =? 443) then sprintf_s address
              else (sprintf_s address ++ ":" ++ sprintf_d port)%string).
  assert (no_nul buf) as Hbuf.
  { unfold buf, sprintf_s. destruct ((port =? 80) || (port =? 443)).
    - apply no_nul_c_str.
    - apply no_nul_append; [apply no_nul_c_str|].
      simpl. split; [discriminate|apply no_nul_sprintf_d]. }
  pose proof (host_comparison buf (hdr_host h) Hbuf) as HC.
  split.
  - intros E. exists buf. split; [reflexivity|]. apply HC.
    destruct (Z.eqb_spec (lws_hdr_total_length (hdr_host h)) (strlen buf))
      as [E1|E1]; simpl in E; [|discriminate].
    apply andb_true_iff in E. destruct E as [E2 E3].
    apply Z.ltb_lt in E2. apply Z.eqb_eq in E3. auto.
  - intros (hp & Ehp & Hne & Heq). injection Ehp as <-.
    fold (sprintf_s address) in Heq. fold buf in Heq.
    destruct HC as [_ HC]. destruct (HC (conj Hne Heq)) as (E1 & E2 & E3).
    rewrite E1, Z.eqb_refl. simpl. rewrite E3.
    apply Z.ltb_lt in E2. rewrite <- E1, E2. reflexivity.
Qed.

(** The test of the request path in the protocol filter. *)
Lemma path_check (H : server_h) (uri : string) :
  no_nul (WS_PATH H) ->
  (0 < String.length (WS_PATH H) < 256)%nat ->
  no_nul uri ->
  (let '(n, buf) := lws_hdr_copy uri EmptyString 256 in
   (n <=? 0) || negb (strcmp buf (WS_PATH H) =? 0)) = false <->
  uri = WS_PATH H.
Proof.
  intros Hws Hlen Huri. unfold lws_hdr_copy, lws_hdr_total_length.
  destruct (Z.geb_spec (Z.of_nat (String.length uri)) 256) as [L|L].
  { simpl. split; [discriminate|intros ->; lia]. }
  destruct (Z.eqb_spec (Z.of_nat (String.length uri)) 0) as [E|E].
  { simpl. split; [discriminate|intros ->; lia]. }
  destruct (Z.leb_spec (Z.of_nat (String.length uri)) 0) as [L'|L']; [lia|].
  simpl. rewrite negb_false_iff, Z.eqb_eq, strcmp_zero_iff.
  now rewrite (c_str_no_nul _ Hws), (c_str_no_nul _ Huri).
Qed.

(** The protocol filter returns 1 or 0, by four tests in a row. *)
Lemma filter_protocol_connection_tests (H : server_h)
  (parse_uri : uri_parser) (s : tty_server) (h : headers) :
  fst (filter_protocol_connection H parse_uri s h) =
  if (once s && (0 <? client_count s))
     || ((0 <? max_clients s) && (client_count s =? max_clients s))
     || (let '(n, buf) := lws_hdr_copy (hdr_get_uri h) EmptyString 256 in
         (n <=? 0) || negb (strcmp buf (WS_PATH H) =? 0))
     || (check_origin s && negb (check_host_origin parse_uri h))
  then 1 else 0.
Proof.
  unfold filter_protocol_connection.
  destruct (once s && (0 <? client_count s)); [reflexivity|].
  destruct ((0 <? max_clients s) && (client_count s =? max_clients s));
    [reflexivity|].
  destruct (lws_hdr_copy (hdr_get_uri h) EmptyString 256) as [n buf].
  destruct ((n <=? 0) || negb (strcmp buf (WS_PATH H) =? 0)); [reflexivity|].
  destruct (check_origin s && negb (check_host_origin parse_uri h));
    reflexivity.
Qed.

(** C6.  The protocol filter refuses the upgrade (returns 1) exactly when
    [once] is set and a client is already counted, or [max_clients] is
    positive and reached, or the request path is not the websocket path, or
    origin checking is on and the host and port of [Origin] (port left out
    when 80 or 443) do not equal the [Host] header without regard to case;
    in every other case it admits the connection (returns 0).  The
    websocket path is a nonempty C string shorter than the 256-byte buffer
    and the request path holds no NUL byte. *)
Theorem admission_refuses_exactly (H : server_h) (parse_uri : uri_parser)
  (s : tty_server) (h : headers) :
  no_nul (WS_PATH H) ->
  (0 < String.length (WS_PATH H) < 256)%nat ->
  no_nul (hdr_get_uri h) ->
  (fst (filter_protocol_connection H parse_uri s h) = 1 <->
   admission_refused H parse_uri s h) /\
  (fst (filter_protocol_connection H parse_uri s h) = 0 <->
   ~ admission_refused H parse_uri s h).
Proof.
  intros Hws Hlen Huri.
  pose proof (path_check H (hdr_get_uri h) Hws Hlen Huri) as HP.
  pose proof (check_host_origin_spec parse_uri h) as HO.
  rewrite filter_protocol_connection_tests.
  set (path_bad :=
         let '(n, buf) := lws_hdr_copy (hdr_get_uri h) EmptyString 256 in
         (n <=? 0) || negb (strcmp buf (WS_PATH H) =? 0)) in *.
  assert ((once s && (0 <? client_count s))
          || ((0 <? max_clients s) && (client_count s =? max_clients s))
          || path_bad
          || (check_origin s && negb (check_host_origin parse_uri h)) = true
          <-> admission_refused H parse_uri s h) as Hdec.
  { unfold admission_refused.
    rewrite !orb_true_iff, !andb_true_iff, Z.ltb_lt, Z.ltb_lt, Z.eqb_eq,
      negb_true_iff.
    assert (path_bad = true <-> hdr_get_uri h <> WS_PATH H) as ->.
    { destruct path_bad; split; try congruence.
      - intros _ E. apply HP in E. discriminate.
      - intros N. elim N. apply HP. reflexivity. }
    assert (check_host_origin parse_uri h = false
            <-> ~ origin_matches_host parse_uri h) as ->.
    { rewrite <- HO. destruct (check_host_origin parse_uri h);
        split; congruence. }
    split.
    - intros [[[[E L]|[L E]]|N]|[E N]].
      + left. split; [exact E|lia].
      + right. left. split; [lia|exact E].
      + right. right. left. exact N.
      + right. right. right. split; assumption.
    - intros [[E L]|[[L E]|[N|[E N]]]].
      + left. left. left. split; [exact E|lia].
      + left. left. right. split; [lia|exact E].
      + left. right. exact N.
      + right. split; assumption. }
  destruct ((once s && (0 <? client_count s))
            || ((0 <? max_clients s) && (client_count s =? max_clients s))
            || path_bad
            || (check_origin s && negb (check_host_origin parse_uri h))).
  - split; split; try discriminate; try reflexivity.
    + intros _. apply Hdec. reflexivity.
    + intros N. elim N. apply Hdec. reflexivity.
  - split; split; try discriminate; try reflexivity.
    + intros R. apply Hdec in R. discriminate.
    + intros _ R. apply Hdec in R. discriminate.
Qed.

(** A request for [/ws] whose origin [http://LocalHost:7681] agrees with
    the host [localhost:7681] is admitted with origin checking on. *)
Lemma admission_refuses_exactly_witness :
  let hd := {| hdr_get_uri := "/ws"; hdr_origin := "http://LocalHost:7681";
               hdr_host := "localhost:7681" |} in
  let s := Sample.with_check_origin Sample.server true in
  fst (filter_protocol_connection Sample.h Sample.parse_uri s hd) = 0 /\
  ~ admission_refused Sample.h Sample.parse_uri s hd.
Proof.
  intros hd s.
  assert (no_nul (WS_PATH Sample.h)) as H1
    by (simpl; repeat split; discriminate).
  assert (0 < String.length (WS_PATH Sample.h) < 256)%nat as H2
    by (simpl; lia).
  assert (no_nul (hdr_get_uri hd)) as H3
    by (simpl; repeat split; discriminate).
  pose proof
    (admission_refuses_exactly Sample.h Sample.parse_uri s hd H1 H2 H3) as W.
  split; [reflexivity|]. apply (proj2 W). reflexivity.
Defined.

(** ** Receiving frames *)

(** The last fragment of a message: once the assembled buffer starts with
    [cmd], the callback runs the inner [switch] on it. *)
Lemma receive_last_fragment (H : server_h) (J : json_c) (s : tty_server)
  (p : nat) (c : tty_client) (e : env) (data : string) (cmd : ascii)
  (rest : string) :
  may_send s c ->
  assemble c data = String cmd rest ->
  receive H J s p c e data 0 true =
  after_switch
    (receive_switch H J s p (set_buffer c (Some (String cmd rest))) e cmd
       (String cmd rest)).
Proof.
  intros Hs Hb. unfold receive. rewrite Hb. cbn [authenticated set_buffer].
  assert (match credential s with Some _ => true | None => false end
          && negb (authenticated c) = false) as ->.
  { destruct Hs as [->| ->]; [reflexivity|].
    destruct (credential s); reflexivity. }
  reflexivity.
Qed.

(** A [RESIZE_TERMINAL] message that starts on an empty assembly buffer is
    parsed, stored, and applied to the PTY of a running child, read-only or
    not. *)
Lemma resize_applies (H : server_h) (J : json_c) (s : tty_server) (p : nat)
  (c : tty_client) (e : env) (d : string) (sz : winsize) (t : trace) :
  INPUT H <> RESIZE_TERMINAL H ->
  may_send s c -> buffer c = None -> 0 < pty c ->
  parse_window_size J d (size c) = (true, sz, t) ->
  receive H J s p c e (String (RESIZE_TERMINAL H) d) 0 true =
  Some (0, s, set_size (set_buffer c None) sz,
        t ++ [ev_ioctl_TIOCSWINSZ (pty c) sz] ++
        (if ioctl_ret e =? -1 then [ev_log LLL_ERR msg_ioctl_failed] else []) ++
        [ev_free res_buffer]).
Proof.
  intros Hd Hs Hb Hpty Hparse.
  rewrite (receive_last_fragment H J s p c e _ (RESIZE_TERMINAL H) d Hs)
    by (unfold assemble; now rewrite Hb).
  unfold receive_switch.
  destruct (Ascii.eqb_spec (RESIZE_TERMINAL H) (INPUT H)) as [E|_];
    [congruence|].
  rewrite Ascii.eqb_refl. cbn [advance size set_buffer pty].
  rewrite Hparse.
  destruct (Z.ltb_spec 0 (pty c)) as [_|]; [|lia].
  cbn [andb after_switch buffer set_size set_buffer].
  rewrite <- !app_assoc. reflexivity.
Qed.

(** C1.  In read-only mode an [INPUT] message on a running session returns
    0 without any call (nothing is written to the PTY), but it leaves the
    message in the assembly buffer: a [RESIZE_TERMINAL] message that arrives
    next is appended to it, is handled as [INPUT] again, and is neither
    parsed nor applied to the PTY. *)
Theorem readonly_input_swallows_resize (H : server_h) (J : json_c)
  (s : tty_server) (p : nat) (c : tty_client) (e1 e2 : env) (d1 d2 : string) :
  readonly s = true ->
  may_send s c -> buffer c = None -> pty c <> 0 ->
  let first := String (INPUT H) d1 in
  let second := String (RESIZE_TERMINAL H) d2 in
  receive H J s p c e1 first 0 true =
    Some (0, s, set_buffer c (Some first), []) /\
  receive H J s p (set_buffer c (Some first)) e2 second 0 true =
    Some (0, s, set_buffer c (Some (first ++ second)%string), []) /\
  size (set_buffer c (Some (first ++ second)%string)) = size c.
Proof.
  intros Hro Hs Hb Hpty first second.
  assert (forall b rest e,
             receive_switch H J s p (set_buffer c b) e (INPUT H) rest =
             Return (0, s, set_buffer c b, [])) as Hsw.
  { intros b rest e. unfold receive_switch. rewrite Ascii.eqb_refl.
    cbn [pty set_buffer].
    destruct (Z.eqb_spec (pty c) 0); [contradiction|].
    rewrite Hro. reflexivity. }
  repeat split.
  - rewrite (receive_last_fragment H J s p c e1 _ (INPUT H) d1 Hs)
      by (unfold assemble; now rewrite Hb).
    now rewrite Hsw.
  - rewrite (receive_last_fragment H J s p _ e2 _ (INPUT H)
               (d1 ++ second)%string)
      by (exact Hs || reflexivity).
    change (set_buffer (set_buffer c (Some first))
              (Some (String (INPUT H) (d1 ++ second))))
      with (set_buffer c (Some (String (INPUT H) (d1 ++ second)))).
    now rewrite Hsw.
Qed.

(** Read-only server, child 42 on descriptor 5: after [INPUT "hi"] the
    frame [RESIZE_TERMINAL {"columns":132,"rows":40}] makes no [ioctl] and
    the window stays at 24 rows by 80 columns. *)
Lemma readonly_input_swallows_resize_witness :
  let s := Sample.with_readonly (Sample.registered Sample.server) true in
  let c := Sample.running_client in
  exists c1 c2,
    receive Sample.h Sample.json s 7%nat c Sample.ok "0hi" 0 true =
      Some (0, s, c1, []) /\
    receive Sample.h Sample.json s 7%nat c1 Sample.ok Sample.resize_frame
      0 true = Some (0, s, c2, []) /\
    size c2 = {| ws_row := 24; ws_col := 80; ws_xpixel := 0; ws_ypixel := 0 |}.
Proof.
  intros s c.
  assert (readonly s = true) as H1 by reflexivity.
  assert (may_send s c) as H2 by (left; reflexivity).
  assert (buffer c = None) as H3 by reflexivity.
  assert (pty c <> 0) as H4 by (simpl; lia).
  destruct (readonly_input_swallows_resize Sample.h Sample.json s 7%nat c
              Sample.ok Sample.ok "hi"
              (advance Sample.resize_frame) H1 H2 H3 H4) as (W1 & W2 & W3).
  eexists. eexists. split; [exact W1|]. split; [exact W2|exact W3].
Defined.

(** The message is refused before the inner [switch] when a credential is
    configured, the client has not authenticated, and the assembled buffer
    does not start with [JSON_DATA]: the callback returns 1, which makes
    libwebsockets close the connection. *)
Lemma receive_not_authenticated (H : server_h) (J : json_c) (s : tty_server)
  (p : nat) (c : tty_client) (e : env) (data : string) (remaining : Z)
  (final : bool) (cred : string) (cmd : ascii) (rest : string) :
  credential s = Some cred -> authenticated c = false ->
  assemble c data = String cmd rest -> cmd <> JSON_DATA H ->
  receive H J s p c e data remaining final =
  Some (1, s, set_buffer c (Some (String cmd rest)),
        [ev_log LLL_WARN msg_not_authenticated]).
Proof.
  intros Hc Ha Hb Hcmd. unfold receive. rewrite Hb, Hc.
  cbn [authenticated set_buffer]. rewrite Ha.
  destruct (Ascii.eqb_spec cmd (JSON_DATA H)); [contradiction|reflexivity].
Qed.

(** With the credential [s3cret] configured, a message with the unknown tag
    [9] from a client that has not authenticated makes the callback return
    1: the connection is closed. *)
Lemma unknown_tag_before_auth_closes :
  let s := Sample.with_credential (Sample.registered Sample.server)
             (Some "s3cret"%string) in
  let c := set_initial_cmd_index (set_initialized Sample.zero_client true) 3 in
  receive Sample.h Sample.json s 7%nat c Sample.ok "9x" 0 true =
    Some (1, s, set_buffer c (Some "9x"%string),
          [ev_log LLL_WARN msg_not_authenticated]) /\
  ~ unknown_tags_never_close Sample.h Sample.json.
Proof.
  intros s c. split; [reflexivity|].
  intros N.
  destruct (N s 7%nat c Sample.ok "9"%char "x"%string) as (s' & c' & t & E);
    try reflexivity; try discriminate.
Qed.

(** C7.  A complete message whose tag is none of [INPUT],
    [RESIZE_TERMINAL], [JSON_DATA] is logged as unknown and dropped, and the
    callback returns 0, on a session that has no credential to check or has
    authenticated; when a credential is configured and the client has not
    authenticated, the message is logged as unauthenticated and the callback
    returns 1. *)
Theorem unknown_tag_dropped_after_auth (H : server_h) (J : json_c)
  (s : tty_server) (p : nat) (c : tty_client) (e : env) (data : string)
  (cmd : ascii) (rest : string) :
  assemble c data = String cmd rest ->
  cmd <> INPUT H -> cmd <> RESIZE_TERMINAL H -> cmd <> JSON_DATA H ->
  (may_send s c ->
   receive H J s p c e data 0 true =
   Some (0, s, set_buffer c None,
         [ev_log LLL_WARN (msg_unknown_message_type cmd);
          ev_free res_buffer])) /\
  (forall cred remaining final,
     credential s = Some cred -> authenticated c = false ->
     receive H J s p c e data remaining final =
     Some (1, s, set_buffer c (Some (String cmd rest)),
           [ev_log LLL_WARN msg_not_authenticated])).
Proof.
  intros Hb H1 H2 H3. split.
  - intros Hs.
    rewrite (receive_last_fragment H J s p c e data cmd rest Hs Hb).
    unfold receive_switch.
    destruct (Ascii.eqb_spec cmd (INPUT H)); [contradiction|].
    destruct (Ascii.eqb_spec cmd (RESIZE_TERMINAL H)); [contradiction|].
    destruct (Ascii.eqb_spec cmd (JSON_DATA H)); [contradiction|].
    reflexivity.
  - intros cred remaining final Hc Ha.
    now apply receive_not_authenticated with (cred := cred).
Qed.

(** The message [9x] on a server without credential. *)
Lemma unknown_tag_dropped_after_auth_witness :
  let s := Sample.registered Sample.server in
  let c := Sample.running_client in
  receive Sample.h Sample.json s 7%nat c Sample.ok "9x" 0 true =
  Some (0, s, c,
        [ev_log LLL_WARN (msg_unknown_message_type "9"); ev_free res_buffer]).
Proof.
  intros s c.
  assert (assemble c "9x" = String "9" "x") as H0 by reflexivity.
  assert ("9"%char <> INPUT Sample.h) as H1 by discriminate.
  assert ("9"%char <> RESIZE_TERMINAL Sample.h) as H2 by discriminate.
  assert ("9"%char <> JSON_DATA Sample.h) as H3 by discriminate.
  assert (may_send s c) as H4 by (left; reflexivity).
  exact (proj1 (unknown_tag_dropped_after_auth Sample.h Sample.json s 7%nat c
                  Sample.ok "9x" "9" "x" H0 H1 H2 H3) H4).
Defined.

(** With the credential [s3cret] configured, [INPUT "hi"] from a client that
    has not authenticated (no child yet, PTY handle zero) is answered with a
    warning and the return value 1, and the bytes stay in the buffer. *)
Lemma early_input_before_auth_closes :
  let s := Sample.with_credential (Sample.registered Sample.server)
             (Some "s3cret"%string) in
  let c := set_initial_cmd_index (set_initialized Sample.zero_client true) 3 in
  pty c = 0 /\
  receive Sample.h Sample.json s 7%nat c Sample.ok "0hi" 0 true =
    Some (1, s, set_buffer c (Some "0hi"%string),
          [ev_log LLL_WARN msg_not_authenticated]) /\
  ~ early_input_never_closes Sample.h Sample.json.
Proof.
  intros s c. split; [reflexivity|]. split; [reflexivity|].
  intros N.
  destruct (N s 7%nat c Sample.ok "hi"%string) as (s' & c' & t & E);
    try reflexivity; discriminate.
Qed.

(** C10.  On a session that has no credential to check or has
    authenticated, a complete [INPUT] message that arrives while the PTY
    handle is zero is dropped: the callback returns 0, writes nothing to a
    PTY, logs nothing, changes neither the registry nor the client, and
    leaves the assembly buffer empty. *)
Theorem early_input_dropped (H : server_h) (J : json_c) (s : tty_server)
  (p : nat) (c : tty_client) (e : env) (data rest : string) :
  may_send s c ->
  assemble c data = String (INPUT H) rest ->
  pty c = 0 ->
  receive H J s p c e data 0 true =
    Some (0, s, set_buffer c None, [ev_free res_buffer]) /\
  buffer (set_buffer c None) = None.
Proof.
  intros Hs Hb Hpty. split; [|reflexivity].
  rewrite (receive_last_fragment H J s p c e data (INPUT H) rest Hs Hb).
  unfold receive_switch. rewrite Ascii.eqb_refl. cbn [pty set_buffer].
  rewrite Hpty. reflexivity.
Qed.

(** [INPUT "hi"] right after the handshake on a server without
    credential. *)
Lemma early_input_dropped_witness :
  let s := Sample.registered Sample.server in
  let c := set_initial_cmd_index (set_initialized Sample.zero_client true) 3 in
  receive Sample.h Sample.json s 7%nat c Sample.ok "0hi" 0 true =
  Some (0, s, c, [ev_free res_buffer]).
Proof.
  intros s c.
  assert (may_send s c) as H1 by (left; reflexivity).
  assert (assemble c "0hi" = String (INPUT Sample.h) "hi") as H2
    by reflexivity.
  assert (pty c = 0) as H3 by reflexivity.
  exact (proj1 (early_input_dropped Sample.h Sample.json s 7%nat c Sample.ok
                  "0hi" "hi" H1 H2 H3)).
Defined.

(** ** Session destruction *)

Lemma count_events_app (f : event -> bool) (t1 t2 : trace) :
  count_events f (t1 ++ t2) = (count_events f t1 + count_events f t2)%nat.
Proof. unfold count_events. now rewrite filter_app, length_app. Qed.

Lemma count_events_repeat (f : event -> bool) (ev : event) (n : nat) :
  count_events f (repeat ev n) = if f ev then n else O.
Proof.
  unfold count_events. induction n as [|n IH]; simpl.
  - now destruct (f ev).
  - destruct (f ev); simpl; [now rewrite IH|exact IH].
Qed.

(** What the releases under [cleanup] contain. *)
Lemma cleanup_trace_counts (c : tty_client) :
  count_events is_kill (cleanup_trace c) = O /\
  count_events is_waitpid (cleanup_trace c) = O /\
  count_events is_close (cleanup_trace c) = O /\
  count_events (is_free_of res_loop) (cleanup_trace c) = 1%nat /\
  count_events is_loop_close (cleanup_trace c) = 1%nat /\
  count_events (is_free_of res_buffer) (cleanup_trace c) =
    match buffer c with Some _ => 1%nat | None => O end /\
  count_events (is_free_of res_pty_buffer) (cleanup_trace c) =
    match pty_buffer c with Some _ => 1%nat | None => O end.
Proof.
  unfold cleanup_trace. destruct (buffer c), (pty_buffer c);
    repeat split; reflexivity.
Qed.

Lemma list_remove_absent (p : nat) (l : list nat) :
  ~ In p l -> list_remove p l = (l, false).
Proof.
  induction l as [|q l IH]; simpl; [reflexivity|].
  intros N. destruct (Nat.eqb_spec q p) as [E|E]; [tauto|].
  rewrite IH by tauto. reflexivity.
Qed.

Lemma list_remove_NoDup (p : nat) (l : list nat) :
  NoDup l -> ~ In p (fst (list_remove p l)).
Proof.
  induction 1 as [|q l Hq Hl IH]; simpl; [tauto|].
  destruct (Nat.eqb_spec q p) as [E|E]; simpl.
  - now subst q.
  - destruct (list_remove p l) as [r found] eqn:Er. simpl in *.
    intros [F|F]; [contradiction|]. tauto.
Qed.

(** Removing a client that has been removed leaves the registry alone. *)
Lemma tty_client_remove_twice (s : tty_server) (p : nat) :
  NoDup (clients s) ->
  tty_client_remove (tty_client_remove s p) p = tty_client_remove s p.
Proof.
  intros Hs. pose proof (list_remove_NoDup p _ Hs) as N.
  unfold tty_client_remove at 2 3.
  destruct (list_remove p (clients s)) as [r found] eqn:Er. simpl in N.
  destruct found.
  - unfold tty_client_remove. cbn [clients set_registry].
    now rewrite (list_remove_absent p r N).
  - unfold tty_client_remove. rewrite Er. reflexivity.
Qed.

(** A client with a running child and a pending PTY chunk: the second call
    of [tty_client_destroy] releases the chunk, the mutex, the condition
    variable and the loop once more, so the loop is freed twice. *)
Lemma destroy_twice_frees_twice :
  let s := Sample.registered Sample.server in
  let c := set_slot Sample.running_client STATE_READY (Some "abc"%string) 3 in
  let '(_, _, once_) := tty_client_destroy s 7%nat c Sample.ok in
  let '(_, _, twice) := destroy_twice s 7%nat c Sample.ok Sample.ok in
  count_events (is_free_of res_loop) once_ = 1%nat /\
  count_events (is_free_of res_loop) twice = 2%nat /\
  count_events (is_free_of res_pty_buffer) twice = 2%nat /\
  ~ destroy_idempotent.
Proof.
  cbv zeta. split; [reflexivity|]. split; [reflexivity|].
  split; [reflexivity|].
  intros N.
  specialize (N (Sample.registered Sample.server) 7%nat
                (set_slot Sample.running_client STATE_READY
                   (Some "abc"%string) 3) Sample.ok Sample.ok).
  vm_compute in N. discriminate N.
Qed.

(** C4.  Of two calls of [tty_client_destroy] in a row, the second sends no
    signal, waits for no child and closes no descriptor, so that over both
    calls the signal is sent and the descriptor closed at most once; it
    leaves the client structure and the registry as the first call left
    them.  The releases under [cleanup] are made by each call: the loop is
    stopped, closed and freed twice, and a buffer that is allocated is freed
    twice. *)
Theorem destroy_twice_signals_once (s : tty_server) (p : nat)
  (c : tty_client) (e1 e2 : env) :
  NoDup (clients s) ->
  let '(s1, c1, t1) := tty_client_destroy s p c e1 in
  let '(s2, c2, t2) := tty_client_destroy s1 p c1 e2 in
  s2 = s1 /\ c2 = c1 /\ t2 = cleanup_trace c1 /\
  count_events is_kill t2 = O /\
  count_events is_waitpid t2 = O /\
  count_events is_close t2 = O /\
  (count_events is_kill (t1 ++ t2) <= 1)%nat /\
  (count_events is_close (t1 ++ t2) <= 1)%nat /\
  count_events (is_free_of res_loop) (t1 ++ t2) = 2%nat /\
  count_events is_loop_close (t1 ++ t2) = 2%nat /\
  count_events (is_free_of res_buffer) (t1 ++ t2) =
    match buffer c with Some _ => 2%nat | None => O end /\
  count_events (is_free_of res_pty_buffer) (t1 ++ t2) =
    match pty_buffer c with Some _ => 2%nat | None => O end.
Proof.
  intros Hs. unfold tty_client_destroy at 1.
  destruct (negb (running c) || (pid c <=? 0)) eqn:G.
  - unfold tty_client_destroy. rewrite G.
    rewrite (tty_client_remove_twice s p Hs).
    destruct (cleanup_trace_counts c) as (K & W & C & FL & LC & FB & FP).
    rewrite !count_events_app, K, W, C, FL, LC, FB, FP.
    repeat split; try lia.
    + now destruct (buffer c).
    + now destruct (pty_buffer c).
  - unfold tty_client_destroy. cbn [running set_running orb negb].
    rewrite (tty_client_remove_twice s p Hs).
    destruct (cleanup_trace_counts (set_running c false))
      as (K & W & C & FL & LC & FB & FP).
    cbn [buffer pty_buffer set_running] in FB, FP.
    rewrite !count_events_app, !count_events_repeat, K, C, FL, LC, FB, FP.
    destruct (negb (kill_ret e1 =? 0)), (buffer c), (pty_buffer c);
      cbn; repeat split; try exact W; lia.
Qed.

(** The session at address 7 with child 42: one signal, one close, the loop
    freed twice. *)
Lemma destroy_twice_signals_once_witness :
  let s := Sample.registered Sample.server in
  let c := Sample.running_client in
  let '(_, _, t1) := tty_client_destroy s 7%nat c Sample.ok in
  let '(_, _, t) := destroy_twice s 7%nat c Sample.ok Sample.ok in
  count_events is_kill t1 = 1%nat /\
  (count_events is_kill t <= 1)%nat /\
  count_events (is_free_of res_loop) t = 2%nat.
Proof.
  assert (NoDup (clients (Sample.registered Sample.server))) as Hs
    by (simpl; constructor; [simpl; tauto|constructor]).
  pose proof (destroy_twice_signals_once (Sample.registered Sample.server)
                7%nat Sample.running_client Sample.ok Sample.ok Hs) as W.
  cbv zeta. unfold destroy_twice.
  destruct (tty_client_destroy (Sample.registered Sample.server) 7%nat
              Sample.running_client Sample.ok) as [[s1 c1] t1] eqn:E1.
  destruct (tty_client_destroy s1 7%nat c1 Sample.ok) as [[s2 c2] t2].
  destruct W as (_ & _ & _ & _ & _ & _ & Wk & _ & Wl & _).
  split; [|split; assumption].
  injection E1 as _ _ <-. reflexivity.
Defined.

(** ** Close codes *)

(** End of file on the PTY: the slot is published with length zero, and the
    next writeable callback closes with the normal code without writing an
    [OUTPUT] frame. *)
Lemma pty_eof_closes_normal (H : server_h) (s : tty_server) (p : nat)
  (c : tty_client) (e : env) (buf : string) :
  running c = true -> state c <> STATE_READY -> initialized c = true ->
  let c' := set_slot c STATE_READY None 0 in
  read_cb c UV_EOF buf = read_returns c' [ev_free res_read_buf] /\
  server_writeable H s p c' e =
    Some (-1, tty_client_remove s p, c',
          [ev_lws_close_reason LWS_CLOSE_STATUS_NORMAL]).
Proof.
  intros Hr Hst Hi c'. split.
  - unfold read_cb. rewrite Hr.
    destruct (state c); try contradiction; reflexivity.
  - unfold server_writeable. cbn [initialized set_slot c' state pty_len].
    rewrite Hi. reflexivity.
Qed.

(** A failed [lws_write] of an initial message closes with the code for an
    unexpected condition. *)
Lemma initial_message_failure_closes (H : server_h) (s : tty_server)
  (p : nat) (c : tty_client) (e : env) (frame : string) :
  initialized c = false ->
  initial_cmd_index c <> sizeof_initial_cmds H ->
  send_initial_message H s e (initial_cmd_index c) = Some frame ->
  lws_write_ret e < 0 ->
  server_writeable H s p c e =
    Some (-1, tty_client_remove s p, c,
          [ev_lws_write frame (lws_write_ret e);
           ev_lws_close_reason LWS_CLOSE_STATUS_UNEXPECTED_CONDITION]).
Proof.
  intros Hi Hx Hf Hw. unfold server_writeable. rewrite Hi, Hf.
  destruct (Z.eqb_spec (initial_cmd_index c) (sizeof_initial_cmds H));
    [contradiction|].
  destruct (Z.ltb_spec (lws_write_ret e) 0); [reflexivity|lia].
Qed.

(** A failed [write] of [INPUT] bytes to the PTY closes with the code for an
    unexpected condition. *)
Lemma input_write_failure_closes (H : server_h) (J : json_c)
  (s : tty_server) (p : nat) (c : tty_client) (e : env) (data rest : string) :
  may_send s c -> readonly s = false -> pty c <> 0 ->
  assemble c data = String (INPUT H) rest ->
  write_ret e = -1 ->
  receive H J s p c e data 0 true =
    Some (-1, tty_client_remove s p,
          set_buffer c (Some (String (INPUT H) rest)),
          [ev_write (pty c) rest;
           ev_log LLL_ERR msg_write_input_failed;
           ev_lws_close_reason LWS_CLOSE_STATUS_UNEXPECTED_CONDITION]).
Proof.
  intros Hs Hro Hpty Hb Hw.
  rewrite (receive_last_fragment H J s p c e data (INPUT H) rest Hs Hb).
  unfold receive_switch. rewrite Ascii.eqb_refl, Hro, Hw.
  cbn [pty set_buffer].
  destruct (Z.eqb_spec (pty c) 0); [contradiction|reflexivity].
Qed.

(** [read_cb] never publishes a negative length. *)
Lemma read_cb_length_nonneg (c c' : tty_client) (nread : Z) (buf : string)
  (t : trace) :
  0 <= pty_len c ->
  read_cb c nread buf = read_returns c' t -> 0 <= pty_len c'.
Proof.
  intros Hc. unfold read_cb.
  destruct (running c); cbn [negb].
  2: { intros E. injection E as <- _. exact Hc. }
  destruct (pty_state_eqb (state c) STATE_READY); [discriminate|].
  destruct (Z.leb_spec nread 0).
  - destruct ((nread =? UV_ENOBUFS) || (nread =? 0)); [discriminate|].
    intros E. injection E as <- _. simpl. lia.
  - intros E. injection E as <- _. simpl. lia.
Qed.

(** C3.  A read error on the PTY (a negative [nread] other than [UV_EOF]
    and [UV_ENOBUFS]) is logged by [read_cb], which then publishes the slot
    with length zero, exactly as for end of file; the next writeable
    callback therefore closes the session with the normal code 1000, not
    with 1011. *)
Theorem pty_read_error_closes_normal (H : server_h) (s : tty_server)
  (p : nat) (c : tty_client) (e : env) (nread : Z) (buf : string) :
  running c = true -> state c <> STATE_READY -> initialized c = true ->
  nread < 0 -> nread <> UV_EOF -> nread <> UV_ENOBUFS ->
  let c' := set_slot c STATE_READY None 0 in
  read_cb c nread buf =
    read_returns c'
      [ev_log LLL_ERR (msg_closing_stream nread); ev_uv_read_stop;
       ev_free res_read_buf] /\
  server_writeable H s p c' e =
    Some (-1, tty_client_remove s p, c', [ev_lws_close_reason 1000]).
Proof.
  intros Hr Hst Hi Hn Heof Hnb c'. split.
  - unfold read_cb. rewrite Hr. cbn [negb].
    destruct (state c); try contradiction; cbn [pty_state_eqb];
      (destruct (Z.leb_spec nread 0); [|lia]);
      (destruct (Z.eqb_spec nread UV_ENOBUFS); [contradiction|]);
      (destruct (Z.eqb_spec nread 0); [lia|]);
      (destruct (Z.eqb_spec nread UV_EOF); [contradiction|]);
      reflexivity.
  - unfold server_writeable. cbn [initialized set_slot c' state pty_len].
    rewrite Hi. reflexivity.
Qed.

(** The read fails with [-5] ([UV_EIO]) on the session of child 42. *)
Lemma pty_read_error_closes_normal_witness :
  let s := Sample.registered Sample.server in
  let c := Sample.running_client in
  exists c',
    read_cb c (-5) EmptyString =
      read_returns c'
        [ev_log LLL_ERR (msg_closing_stream (-5)); ev_uv_read_stop;
         ev_free res_read_buf] /\
    server_writeable Sample.h s 7%nat c' Sample.ok =
      Some (-1, tty_client_remove s 7%nat, c', [ev_lws_close_reason 1000]).
Proof.
  intros s c. eexists.
  apply (pty_read_error_closes_normal Sample.h s 7%nat c Sample.ok (-5)
           EmptyString);
    try reflexivity; try discriminate.
Defined.

(** ** The handshake *)

Lemma written_frames_app (t1 t2 : trace) :
  written_frames (t1 ++ t2) = written_frames t1 ++ written_frames t2.
Proof.
  induction t1 as [|ev t1 IH]; simpl; [reflexivity|].
  destruct ev; simpl; now rewrite ?IH.
Qed.

(** Case analysis on the scrutinee of a [match] or [if] in the goal or in a
    hypothesis. *)
Ltac destruct_match :=
  match goal with
  | |- context [match ?x with _ => _ end] => destruct x eqn:?
  | H : context [match ?x with _ => _ end] |- _ => destruct x eqn:?
  end.

(** Solves a goal about the result of a callback by running through all of
    its branches. *)
Ltac callback_cases :=
  repeat (first
    [ progress (intros; subst)
    | discriminate
    | match goal with
      | H : Some _ = Some _ |- _ => injection H as <- <- <- <-
      | H : Return _ = Return _ |- _ => injection H as <-
      | H : Break _ _ _ = Break _ _ _ |- _ => injection H as <- <- <-
      | H : (_, _) = (_, _) |- _ => injection H; clear H; intros; subst
      end
    | destruct_match ]).

(** The frame of the initial message number [i] starts with the tag at
    position [i] of [initial_cmds]. *)
Lemma send_initial_message_tag (H : server_h) (s : tty_server) (e : env)
  (i : Z) (frame : string) :
  send_initial_message H s e i = Some frame ->
  exists k : nat,
    i = Z.of_nat k /\ (k < 3)%nat /\
    nth_error (initial_cmds H) k = frame_tag frame.
Proof.
  unfold send_initial_message.
  destruct (Z.ltb_spec i 0) as [|Hi]; [discriminate|].
  destruct (nth_error (initial_cmds H) (Z.to_nat i)) as [cmd|] eqn:En;
    [|discriminate].
  intros E. exists (Z.to_nat i).
  split; [lia|]. split.
  - change 3%nat with (List.length (initial_cmds H)).
    apply nth_error_Some. rewrite En. discriminate.
  - rewrite En. injection E as <-.
    assert (In cmd (initial_cmds H)) as Hin by (eapply nth_error_In; eauto).
    destruct (Ascii.eqb_spec cmd (SET_WINDOW_TITLE H)); [reflexivity|].
    destruct (Ascii.eqb_spec cmd (SET_RECONNECT H)); [reflexivity|].
    destruct (Ascii.eqb_spec cmd (SET_PREFERENCES H)); [reflexivity|].
    simpl in Hin. intuition congruence.
Qed.

Lemma firstn_snoc_nth {A : Type} (l : list A) (k : nat) (x : A) :
  nth_error l k = Some x -> firstn (S k) l = firstn k l ++ [x].
Proof.
  revert k. induction l as [|a l IH]; intros [|k]; simpl; try discriminate.
  - intros E. injection E as ->. reflexivity.
  - intros E. now rewrite <- IH.
Qed.

(** The receive callback writes no frame and does not touch the
    handshake. *)
Lemma receive_quiet (H : server_h) (J : json_c) (s s' : tty_server)
  (p : nat) (c c' : tty_client) (e : env) (data : string) (remaining : Z)
  (final : bool) (ret : Z) (t : trace) :
  receive H J s p c e data remaining final = Some (ret, s', c', t) ->
  written_frames t = [] /\
  initialized c' = initialized c /\
  initial_cmd_index c' = initial_cmd_index c.
Proof.
  unfold receive, after_switch, receive_switch, receive_json_data,
    check_auth_token, parse_window_size.
  intros E. callback_cases;
    rewrite ?written_frames_app; repeat split; reflexivity.
Qed.

(** Neither does [read_cb], nor [thread_cb]. *)
Lemma read_cb_quiet (c c' : tty_client) (nread : Z) (buf : string)
  (t : trace) :
  read_cb c nread buf = read_returns c' t ->
  written_frames t = [] /\
  initialized c' = initialized c /\
  initial_cmd_index c' = initial_cmd_index c.
Proof.
  unfold read_cb. intros E.
  destruct (negb (running c)).
  { injection E as <- <-. repeat split. }
  destruct (pty_state_eqb (state c) STATE_READY); [discriminate|].
  destruct (nread <=? 0).
  - destruct ((nread =? UV_ENOBUFS) || (nread =? 0)); [discriminate|].
    injection E as <- <-.
    destruct (negb (nread =? UV_EOF)); repeat split.
  - injection E as <- <-. repeat split.
Qed.

Lemma thread_cb_quiet (c c' : tty_client) (child fd : Z) (t : trace) :
  thread_cb c child fd = (c', t) ->
  written_frames t = [] /\
  initialized c' = initialized c /\
  initial_cmd_index c' = initial_cmd_index c.
Proof.
  unfold thread_cb. intros E.
  destruct (child =? -1).
  { injection E as <- <-. repeat split. }
  destruct ((0 <? ws_row (size (set_child c child fd)))
            && (0 <? ws_col (size (set_child c child fd))));
    injection E as <- <-; repeat split.
Qed.

Section Handshake.

Variable H : server_h.
Variable J : json_c.
Variable parse_uri : uri_parser.
Variable p : nat.

(** A step that writes no frame and leaves the handshake fields alone
    keeps the invariant. *)
Lemma handshake_inv_quiet (st st' : session) :
  stat st = st_open ->
  handshake_inv H st ->
  written_frames (out st') = written_frames (out st) ->
  initialized (cli st') = initialized (cli st) ->
  initial_cmd_index (cli st') = initial_cmd_index (cli st) ->
  handshake_inv H st'.
Proof.
  intros Ho (k & m & Hk & Ht & Hn & Hi & Hx) Ew Ei Ex.
  exists k, m. rewrite Ew, Ei, Ex. repeat split; try assumption.
  left. destruct Hx as [Hx|[Hx _]]; [exact Hx|congruence].
Qed.

Lemma server_writeable_handshake (st : session) (e : env) :
  stat st = st_open ->
  handshake_inv H st ->
  handshake_inv H
    (after_callback st (server_writeable H (srv st) p (cli st) e)).
Proof.
  intros Ho Inv.
  pose proof Inv as (k & m & Hk & Ht & Hn & Hi & Hx).
  destruct Hx as [Hx|[Hx _]]; [|congruence].
  unfold server_writeable.
  destruct (initialized (cli st)) eqn:Ei; cbn [negb].
  - (* the handshake is over *)
    specialize (Hi eq_refl).
    destruct (pty_state_eqb (state (cli st)) STATE_READY); cbn [negb].
    2: { apply (handshake_inv_quiet st); auto.
         simpl. now rewrite app_nil_r. }
    destruct (pty_len (cli st) <=? 0).
    { apply (handshake_inv_quiet st); auto.
      simpl. now rewrite written_frames_app, app_nil_r. }
    destruct (pty_buffer (cli st)) as [chunk|].
    2: { apply (handshake_inv_quiet st); auto. }
    exists k, (S m). cbn [after_callback out cli].
    rewrite !written_frames_app, map_app, Ht.
    cbn [initialized initial_cmd_index set_slot].
    repeat split; auto.
    + rewrite <- app_assoc. f_equal.
      destruct (lws_write_ret e mod 2 ^ 64 <? pty_len (cli st) + 1);
        simpl; now rewrite <- repeat_cons.
    + rewrite Ei. discriminate.
  - (* the handshake is in progress *)
    specialize (Hn eq_refl). subst m.
    destruct (Z.eqb_spec (initial_cmd_index (cli st)) (sizeof_initial_cmds H))
      as [E3|E3].
    { exists k, O. cbn [after_callback out cli].
      rewrite app_nil_r.
      cbn [initialized initial_cmd_index set_initialized].
      repeat split; auto. }
    destruct (send_initial_message H (srv st) e (initial_cmd_index (cli st)))
      as [frame|] eqn:Ef.
    2: { apply (handshake_inv_quiet st); auto. }
    destruct (send_initial_message_tag _ _ _ _ _ Ef) as (k' & Ek & Hk' & Hnth).
    assert (k' = k) by lia. subst k'.
    destruct (nth_error (initial_cmds H) k) as [x|] eqn:En.
    2: { apply nth_error_None in En. simpl in En. lia. }
    assert (map frame_tag (written_frames (out st)) ++ [frame_tag frame] =
            map Some (firstn (S k) (initial_cmds H)) ++ repeat (Some (OUTPUT H)) 0)
      as Ht'.
    { rewrite Ht, (firstn_snoc_nth _ _ _ En), map_app, <- Hnth.
      simpl. now rewrite !app_nil_r. }
    destruct (lws_write_ret e <? 0).
    + exists (S k), O. cbn [after_callback out cli stat].
      rewrite written_frames_app, map_app. simpl written_frames.
      repeat split; auto; try lia.
      * rewrite Ei. discriminate.
      * right. split; [discriminate|lia].
    + exists (S k), O. cbn [after_callback out cli stat].
      rewrite written_frames_app, map_app. simpl written_frames.
      cbn [initialized initial_cmd_index set_initial_cmd_index].
      repeat split; auto; try lia.
      rewrite Ei. discriminate.
Qed.

Lemma step_handshake (st : session) (i : input) :
  handshake_inv H st -> handshake_inv H (step H J parse_uri p st i).
Proof.
  intros Inv. unfold step.
  destruct (stat st) eqn:Ho; try exact Inv.
  destruct i as [e|data remaining final e|child fd|nread buf].
  - apply server_writeable_handshake; assumption.
  - cbn [callback_tty].
    destruct (receive H J (srv st) p (cli st) e data remaining final)
      as [[[[ret s'] c'] t]|] eqn:Er.
    + destruct (receive_quiet _ _ _ _ _ _ _ _ _ _ _ _ _ Er) as (Q1 & Q2 & Q3).
      apply (handshake_inv_quiet st); auto.
      simpl. now rewrite written_frames_app, Q1, app_nil_r.
    + apply (handshake_inv_quiet st); auto.
  - destruct (threads st); [exact Inv|].
    destruct (thread_cb (cli st) child fd) as [c' t] eqn:Et.
    destruct (thread_cb_quiet _ _ _ _ _ Et) as (Q1 & Q2 & Q3).
    apply (handshake_inv_quiet st); auto.
    simpl. now rewrite written_frames_app, Q1, app_nil_r.
  - destruct (read_cb (cli st) nread buf) as [c' t| |] eqn:Er;
      try exact Inv.
    destruct (read_cb_quiet _ _ _ _ _ Er) as (Q1 & Q2 & Q3).
    apply (handshake_inv_quiet st); auto.
    simpl. now rewrite written_frames_app, Q1, app_nil_r.
Qed.

Lemma run_handshake (l : list input) (st : session) :
  handshake_inv H st -> handshake_inv H (run H J parse_uri p st l).
Proof.
  revert st. induction l as [|i l IH]; intros st Inv; [exact Inv|].
  simpl. apply IH, step_handshake, Inv.
Qed.

Lemma session_start_handshake (s : tty_server) (c0 : tty_client) (e : env) :
  handshake_inv H (session_start H J parse_uri p s c0 e).
Proof.
  exists O, O. simpl. repeat split; auto; discriminate.
Qed.

(** No step moves the handshake index backwards. *)
Lemma step_index_monotone (st : session) (i : input) :
  initial_cmd_index (cli st) <=
  initial_cmd_index (cli (step H J parse_uri p st i)).
Proof.
  unfold step. destruct (stat st); try lia.
  destruct i as [e|data remaining final e|child fd|nread buf].
  - cbn [callback_tty]. unfold server_writeable.
    destruct (negb (initialized (cli st))).
    + destruct (initial_cmd_index (cli st) =? sizeof_initial_cmds H);
        [simpl; lia|].
      destruct (send_initial_message H (srv st) e (initial_cmd_index (cli st)));
        [|simpl; lia].
      destruct (lws_write_ret e <? 0); simpl; lia.
    + destruct (negb (pty_state_eqb (state (cli st)) STATE_READY));
        [simpl; lia|].
      destruct (pty_len (cli st) <=? 0); [simpl; lia|].
      destruct (pty_buffer (cli st)); simpl; lia.
  - cbn [callback_tty].
    destruct (receive H J (srv st) p (cli st) e data remaining final)
      as [[[[ret s'] c'] t]|] eqn:Er; [|simpl; lia].
    destruct (receive_quiet _ _ _ _ _ _ _ _ _ _ _ _ _ Er) as (_ & _ & Q).
    simpl. lia.
  - destruct (threads st); [simpl; lia|].
    destruct (thread_cb (cli st) child fd) as [c' t] eqn:Et.
    destruct (thread_cb_quiet _ _ _ _ _ Et) as (_ & _ & Q).
    simpl. lia.
  - destruct (read_cb (cli st) nread buf) as [c' t| |] eqn:Er;
      try (simpl; lia).
    destruct (read_cb_quiet _ _ _ _ _ Er) as (_ & _ & Q).
    simpl. lia.
Qed.

Lemma run_index_monotone (l : list input) (st : session) :
  initial_cmd_index (cli st) <=
  initial_cmd_index (cli (run H J parse_uri p st l)).
Proof.
  revert st. induction l as [|i l IH]; intros st.
  - apply Z.le_refl.
  - apply Z.le_trans with (1 := step_index_monotone st i).
    apply (IH (step H J parse_uri p st i)).
Qed.

End Handshake.

(** One writeable callback during the handshake whose write succeeds emits
    the message at the index and advances the index. *)
Lemma writeable_emits_next (H : server_h) (J : json_c)
  (parse_uri : uri_parser) (p : nat) (st : session) (e : env) (k : nat)
  (cmd : ascii) :
  stat st = st_open -> initialized (cli st) = false ->
  initial_cmd_index (cli st) = Z.of_nat k ->
  nth_error (initial_cmds H) k = Some cmd ->
  0 <= lws_write_ret e ->
  let st' := step H J parse_uri p st (in_writeable e) in
  stat st' = st_open /\ initialized (cli st') = false /\
  initial_cmd_index (cli st') = Z.of_nat (S k) /\
  map frame_tag (written_frames (out st')) =
    map frame_tag (written_frames (out st)) ++ [Some cmd].
Proof.
  intros Ho Ei Ex En Hw st'. unfold st', step. rewrite Ho.
  cbn [callback_tty]. unfold server_writeable. rewrite Ei. cbn [negb].
  assert (k < 3)%nat as Hk.
  { change 3%nat with (List.length (initial_cmds H)).
    apply nth_error_Some. rewrite En. discriminate. }
  destruct (Z.eqb_spec (initial_cmd_index (cli st)) (sizeof_initial_cmds H))
    as [E3|_].
  { unfold sizeof_initial_cmds in E3. simpl in E3. lia. }
  destruct (send_initial_message H (srv st) e (initial_cmd_index (cli st)))
    as [frame|] eqn:Ef.
  2: { unfold send_initial_message in Ef. rewrite Ex, Nat2Z.id, En in Ef.
       destruct (Z.of_nat k <? 0) eqn:L; [lia|discriminate]. }
  destruct (send_initial_message_tag _ _ _ _ _ Ef) as (k' & Ek & _ & Hnth).
  assert (k' = k) by lia. subst k'. rewrite En in Hnth.
  destruct (Z.ltb_spec (lws_write_ret e) 0); [lia|].
  cbn [after_callback stat cli out initialized initial_cmd_index
         set_initial_cmd_index Z.eqb].
  rewrite written_frames_app, map_app, Ei, Ex. simpl written_frames.
  simpl map at 2. rewrite <- Hnth. repeat split. lia.
Qed.

(** C5.  Along every session, whatever callbacks, thread starts and PTY
    reads occur after [LWS_CALLBACK_ESTABLISHED], the frames handed to
    [lws_write] are the first [k] of [SET_WINDOW_TITLE], [SET_RECONNECT],
    [SET_PREFERENCES], in this order and each once, followed by [OUTPUT]
    frames only, and an [OUTPUT] frame is written only after all three;
    the handshake index never decreases; and three writeable callbacks
    whose writes succeed emit the three messages. *)
Theorem initial_messages_in_order (H : server_h) (J : json_c)
  (parse_uri : uri_parser) (p : nat) (s : tty_server) (c0 : tty_client)
  (e0 : env) (l : list input) :
  let start := session_start H J parse_uri p s c0 e0 in
  let st := run H J parse_uri p start l in
  initial_cmds H = [SET_WINDOW_TITLE H; SET_RECONNECT H; SET_PREFERENCES H] /\
  (exists k m : nat,
     (k <= 3)%nat /\
     map frame_tag (written_frames (out st)) =
       map Some (firstn k (initial_cmds H)) ++ repeat (Some (OUTPUT H)) m /\
     (0 < m -> k = 3)%nat) /\
  (forall l',
     initial_cmd_index (cli st) <=
     initial_cmd_index (cli (run H J parse_uri p start (l ++ l')))) /\
  (forall e1 e2 e3,
     0 <= lws_write_ret e1 -> 0 <= lws_write_ret e2 ->
     0 <= lws_write_ret e3 ->
     let st3 :=
       run H J parse_uri p start
         [in_writeable e1; in_writeable e2; in_writeable e3] in
     map frame_tag (written_frames (out st3)) =
       [Some (SET_WINDOW_TITLE H); Some (SET_RECONNECT H);
        Some (SET_PREFERENCES H)] /\
     initial_cmd_index (cli st3) = 3 /\ stat st3 = st_open).
Proof.
  intros start st. split; [reflexivity|]. split; [|split].
  - destruct (run_handshake H J parse_uri p l start
                (session_start_handshake H J parse_uri p s c0 e0))
      as (k & m & Hk & Ht & Hn & Hi & Hx).
    fold st in Ht, Hn, Hi, Hx.
    exists k, m. repeat split; auto.
    intros Hm. destruct (initialized (cli st)) eqn:Ei.
    + specialize (Hi eq_refl). lia.
    + specialize (Hn eq_refl). lia.
  - intros l'. unfold st, run. rewrite fold_left_app.
    apply run_index_monotone.
  - intros e1 e2 e3 H1 H2 H3. unfold run. cbn [fold_left].
    destruct (writeable_emits_next H J parse_uri p start e1 0
                (SET_WINDOW_TITLE H)) as (A1 & B1 & C1 & D1);
      try reflexivity; try assumption.
    destruct (writeable_emits_next H J parse_uri p _ e2 1
                (SET_RECONNECT H) A1 B1 C1) as (A2 & B2 & C2 & D2);
      try reflexivity; try assumption.
    destruct (writeable_emits_next H J parse_uri p _ e3 2
                (SET_PREFERENCES H) A2 B2 C2) as (A3 & B3 & C3 & D3);
      try reflexivity; try assumption.
    rewrite D3, D2, D1. repeat split; assumption.
Qed.

(** The session at address 7 on the sample server: the three initial
    messages carry the tags [1], [3], [2]. *)
Lemma initial_messages_in_order_witness :
  let start :=
    session_start Sample.h Sample.json Sample.parse_uri 7%nat Sample.server
      Sample.zero_client Sample.ok in
  let st3 :=
    run Sample.h Sample.json Sample.parse_uri 7%nat start
      [in_writeable Sample.ok; in_writeable Sample.ok; in_writeable Sample.ok] in
  map frame_tag (written_frames (out st3)) =
    [Some "1"%char; Some "3"%char; Some "2"%char] /\
  initial_cmd_index (cli st3) = 3 /\ stat st3 = st_open.
Proof.
  intros start st3.
  assert (0 <= lws_write_ret Sample.ok) as Hw by (simpl; lia).
  exact (proj2 (proj2 (proj2
           (initial_messages_in_order Sample.h Sample.json Sample.parse_uri
              7%nat Sample.server Sample.zero_client Sample.ok [])))
           Sample.ok Sample.ok Sample.ok Hw Hw Hw).
Defined.

(** ** Authentication *)

Lemma spawns_app (t1 t2 : trace) :
  spawns (t1 ++ t2) = spawns t1 || spawns t2.
Proof. unfold spawns. apply existsb_app. Qed.

Lemma started_threads_spawns (t : trace) :
  (0 < started_threads t)%nat -> spawns t = true.
Proof.
  induction t as [|ev t IH]; simpl; [lia|].
  destruct ev; simpl; auto.
Qed.

Lemma tty_client_remove_credential (s : tty_server) (p : nat) :
  credential (tty_client_remove s p) = credential s.
Proof.
  unfold tty_client_remove. destruct (list_remove p (clients s)) as [l []];
    reflexivity.
Qed.

(** The token check marks the client authenticated only on a matching
    token, and makes no call besides logging. *)
Lemma check_auth_token_spec (J : json_c) (c c1 : tty_client)
  (cred b : string) (t1 : trace) :
  check_auth_token J c cred b = (c1, t1) ->
  spawns t1 = false /\ forallb is_log t1 = true /\
  ((token_matches J cred b /\ c1 = set_authenticated c true /\ t1 = []) \/
   (~ token_matches J cred b /\ c1 = c)).
Proof.
  unfold check_auth_token, token_matches.
  destruct (json_object_object_get_ex J (json_tokener_parse J b) "AuthToken")
    as [o|] eqn:Eo.
  2: { intros E. injection E as <- <-. repeat split.
       right. split; [|reflexivity]. intros (o & tok & E & _). discriminate. }
  destruct (json_object_get_string J o) as [token|] eqn:Et.
  2: { intros E. injection E as <- <-. repeat split.
       right. split; [|reflexivity]. intros (o' & tok & E1 & E2 & _).
       congruence. }
  destruct (Z.eqb_spec (strcmp token cred) 0) as [E0|E0];
    intros E; injection E as <- <-; repeat split.
  - left. repeat split. exists o, token.
    split; [reflexivity|]. split; [exact Et|].
    now apply strcmp_zero_iff.
  - right. split; [|reflexivity]. intros (o' & tok & E1 & E2 & E3).
    apply E0, strcmp_zero_iff. congruence.
Qed.

(** With a credential configured and the client not yet authenticated, the
    inner [switch] on a complete message marks the client authenticated or
    makes a spawning call only if the message carries a matching token. *)
Lemma receive_switch_arms (H : server_h) (J : json_c) (s s' : tty_server)
  (p : nat) (c c' : tty_client) (e : env) (cmd : ascii) (b cred : string)
  (ret : Z) (t : trace) :
  credential s = Some cred -> authenticated c = false ->
  after_switch (receive_switch H J s p c e cmd b) = Some (ret, s', c', t) ->
  authenticated c' = true \/ spawns t = true ->
  token_matches J cred b.
Proof.
  intros Hc Ha. unfold receive_switch.
  destruct (Ascii.eqb cmd (INPUT H)).
  { unfold after_switch. intros E [A|S]; callback_cases;
      simpl in *; congruence. }
  destruct (Ascii.eqb cmd (RESIZE_TERMINAL H)).
  { unfold after_switch, parse_window_size. intros E [A|S];
      callback_cases; simpl in *; congruence. }
  destruct (Ascii.eqb cmd (JSON_DATA H)).
  2: { unfold after_switch. intros E [A|S]; callback_cases;
         simpl in *; congruence. }
  unfold receive_json_data.
  destruct (0 <? pid c).
  { unfold after_switch. intros E [A|S]; callback_cases;
      simpl in *; congruence. }
  rewrite Hc.
  destruct (check_auth_token J c cred b) as [c1 t1] eqn:Ec.
  destruct (check_auth_token_spec _ _ _ _ _ _ Ec)
    as (S1 & _ & [(M & _ & _)|(_ & ->)]); [intros _ _; exact M|].
  rewrite Ha. cbn [andb negb after_switch].
  intros E [A|S]; injection E as <- <- <- <-.
  - congruence.
  - rewrite spawns_app, S1 in S. discriminate S.
Qed.

Lemma receive_arms (H : server_h) (J : json_c) (s s' : tty_server)
  (p : nat) (c c' : tty_client) (e : env) (data : string) (remaining : Z)
  (final : bool) (cred : string) (ret : Z) (t : trace) :
  credential s = Some cred -> authenticated c = false ->
  receive H J s p c e data remaining final = Some (ret, s', c', t) ->
  authenticated c' = true \/ spawns t = true ->
  (exists rest, assemble c data = String (JSON_DATA H) rest) /\
  remaining <= 0 /\ final = true /\
  token_matches J cred (assemble c data).
Proof.
  intros Hc Ha. unfold receive.
  destruct (assemble c data) as [|cmd rest] eqn:Eb; [discriminate|].
  rewrite Hc. cbn [authenticated set_buffer]. rewrite Ha. cbn [negb andb].
  destruct (Ascii.eqb_spec cmd (JSON_DATA H)) as [->|N]; cbn [negb].
  2: { intros E [A|S]; injection E as <- <- <- <-; simpl in *; congruence. }
  destruct (Z.ltb_spec 0 remaining) as [L|L]; cbn [orb].
  { intros E [A|S]; injection E as <- <- <- <-; simpl in *; congruence. }
  destruct final; cbn [negb].
  2: { intros E [A|S]; injection E as <- <- <- <-; simpl in *; congruence. }
  intros E Arm.
  split; [exists rest; reflexivity|]. split; [exact L|].
  split; [reflexivity|].
  exact (receive_switch_arms H J s s' p
           (set_buffer c (Some (String (JSON_DATA H) rest))) c' e _ _ cred
           ret t Hc Ha E Arm).
Qed.

(** The callbacks leave the credential of the server alone. *)
Lemma receive_credential (H : server_h) (J : json_c) (s s' : tty_server)
  (p : nat) (c c' : tty_client) (e : env) (data : string) (remaining : Z)
  (final : bool) (ret : Z) (t : trace) :
  receive H J s p c e data remaining final = Some (ret, s', c', t) ->
  credential s' = credential s.
Proof.
  unfold receive, after_switch, receive_switch, receive_json_data,
    check_auth_token, parse_window_size.
  intros E. callback_cases;
    rewrite ?tty_client_remove_credential; congruence.
Qed.

Lemma server_writeable_quiet (H : server_h) (s s' : tty_server) (p : nat)
  (c c' : tty_client) (e : env) (ret : Z) (t : trace) :
  server_writeable H s p c e = Some (ret, s', c', t) ->
  credential s' = credential s /\
  authenticated c' = authenticated c /\
  spawns t = false /\ started_threads t = O.
Proof.
  unfold server_writeable. intros E. callback_cases;
    rewrite ?tty_client_remove_credential; repeat split; congruence.
Qed.

Lemma read_cb_no_spawn (c c' : tty_client) (nread : Z) (buf : string)
  (t : trace) :
  read_cb c nread buf = read_returns c' t ->
  authenticated c' = authenticated c /\ spawns t = false.
Proof.
  unfold read_cb. intros E.
  destruct (negb (running c)).
  { injection E as <- <-. repeat split. }
  destruct (pty_state_eqb (state c) STATE_READY); [discriminate|].
  destruct (nread <=? 0).
  - destruct ((nread =? UV_ENOBUFS) || (nread =? 0)); [discriminate|].
    injection E as <- <-.
    destruct (negb (nread =? UV_EOF)); repeat split.
  - injection E as <- <-. repeat split.
Qed.

Section Authentication.

Variable H : server_h.
Variable J : json_c.
Variable parse_uri : uri_parser.
Variable p : nat.
Variable cred : string.

Lemma step_credential (st : session) (i : input) :
  credential (srv (step H J parse_uri p st i)) = credential (srv st).
Proof.
  unfold step. destruct (stat st); try reflexivity.
  destruct i as [e|data remaining final e|child fd|nread buf].
  - cbn [callback_tty].
    destruct (server_writeable H (srv st) p (cli st) e)
      as [[[[ret s'] c'] t]|] eqn:E; [|reflexivity].
    now destruct (server_writeable_quiet _ _ _ _ _ _ _ _ _ E) as (Q & _).
  - cbn [callback_tty].
    destruct (receive H J (srv st) p (cli st) e data remaining final)
      as [[[[ret s'] c'] t]|] eqn:E; [|reflexivity].
    exact (receive_credential _ _ _ _ _ _ _ _ _ _ _ _ _ E).
  - destruct (threads st); [reflexivity|].
    now destruct (thread_cb (cli st) child fd).
  - now destruct (read_cb (cli st) nread buf).
Qed.

Lemma run_credential (l : list input) (st : session) :
  credential (srv (run H J parse_uri p st l)) = credential (srv st).
Proof.
  revert st. induction l as [|i l IH]; intros st; [reflexivity|].
  simpl. fold (run H J parse_uri p (step H J parse_uri p st i) l).
  now rewrite IH, step_credential.
Qed.

(** A step arms the session only by receiving a matching token. *)
Lemma step_armed (st : session) (i : input) :
  credential (srv st) = Some cred ->
  armed (step H J parse_uri p st i) ->
  armed st \/ (stat st = st_open /\ auth_received H J cred st i).
Proof.
  intros Hc. unfold step.
  destruct (stat st) eqn:Ho; try (intros A; left; exact A).
  destruct i as [e|data remaining final e|child fd|nread buf].
  - cbn [callback_tty].
    destruct (server_writeable H (srv st) p (cli st) e)
      as [[[[ret s'] c'] t]|] eqn:E; [|intros A; left; exact A].
    destruct (server_writeable_quiet _ _ _ _ _ _ _ _ _ E)
      as (_ & Qa & Qs & Qt).
    unfold armed. cbn [after_callback cli threads out].
    rewrite Qa, Qt, spawns_app, Qs, Nat.add_0_r, orb_false_r. tauto.
  - cbn [callback_tty].
    destruct (receive H J (srv st) p (cli st) e data remaining final)
      as [[[[ret s'] c'] t]|] eqn:E; [|intros A; left; exact A].
    unfold armed at 1. cbn [after_callback cli threads out].
    rewrite spawns_app. intros A.
    destruct (authenticated (cli st)) eqn:Ea; [left; left; exact Ea|].
    assert (armed st \/ (authenticated c' = true \/ spawns t = true)) as [B|B].
    { destruct A as [A|[A|A]].
      - right. left. exact A.
      - destruct (Nat.eq_dec (started_threads t) 0) as [Z0|Z0].
        + left. right. left. lia.
        + right. right. apply started_threads_spawns. lia.
      - apply orb_true_iff in A. destruct A as [A|A].
        + left. right. right. exact A.
        + right. right. exact A. }
    + left. exact B.
    + right. split; [reflexivity|].
      exact (receive_arms _ _ _ _ _ _ _ _ _ _ _ _ _ _ Hc Ea E B).
  - destruct (threads st) as [|n] eqn:Et; [intros A; left; exact A|].
    intros _. left. right. left. lia.
  - destruct (read_cb (cli st) nread buf) as [c' t| |] eqn:E;
      try (intros A; left; exact A).
    destruct (read_cb_no_spawn _ _ _ _ _ E) as (Qa & Qs).
    unfold armed. cbn [cli threads out].
    rewrite Qa, spawns_app, Qs, orb_false_r. tauto.
Qed.

(** Along a session that starts unarmed, being armed is preceded by the
    reception of a matching token. *)
Lemma run_armed (l : list input) (start : session) :
  credential (srv start) = Some cred ->
  ~ armed start ->
  armed (run H J parse_uri p start l) ->
  exists pre i post,
    l = pre ++ i :: post /\
    stat (run H J parse_uri p start pre) = st_open /\
    auth_received H J cred (run H J parse_uri p start pre) i.
Proof.
  intros Hc H0. induction l as [|i l IH] using rev_ind.
  - intros A. contradiction.
  - unfold run. rewrite fold_left_app. cbn [fold_left].
    fold (run H J parse_uri p start l). intros A.
    apply step_armed in A; [|now rewrite run_credential].
    destruct A as [A|[Ho A]].
    + destruct (IH A) as (pre & j & post & -> & Hs & Hr).
      exists pre, j, (post ++ [i]).
      rewrite <- app_assoc. repeat split; assumption.
    + exists l, i, []. repeat split; assumption.
Qed.

End Authentication.

(** With the credential [s3cret], a [JSON_DATA] message with the token
    [nope] that reaches a session whose child (42) is running is dropped:
    the callback returns 0, the registry keeps the client, and no close
    reason is set. *)
Lemma wrong_token_after_spawn_ignored :
  let s := Sample.with_credential (Sample.registered Sample.server)
             (Some "s3cret"%string) in
  let c := set_authenticated Sample.running_client true in
  ~ token_matches Sample.json "s3cret" (Sample.auth_frame "nope") /\
  receive Sample.h Sample.json s 7%nat c Sample.ok (Sample.auth_frame "nope")
    0 true = Some (0, s, c, [ev_free res_buffer]) /\
  ~ unmatched_token_always_closes Sample.h Sample.json.
Proof.
  intros s c.
  assert (~ token_matches Sample.json "s3cret" (Sample.auth_frame "nope"))
    as NM.
  { intros (o & tok & E1 & E2 & E3).
    vm_compute in E1. injection E1 as <-.
    vm_compute in E2. injection E2 as <-.
    vm_compute in E3. discriminate E3. }
  split; [exact NM|]. split; [reflexivity|].
  intros N.
  destruct (N s 7%nat c Sample.ok "s3cret"%string
              (advance (Sample.auth_frame "nope")) eq_refl eq_refl NM)
    as (c' & t & E & _).
  vm_compute in E. discriminate E.
Qed.

(** C2.  With a credential configured, (a) a session makes a spawning call
    ([uv_thread_create], [forkpty]) only after it has received a complete
    [JSON_DATA] message whose token equals the credential; (b) on a client
    that is not authenticated and has no child, a complete [JSON_DATA]
    message whose token does not equal the credential (in particular one
    that does not parse) removes the client from the registry, sets the
    close reason 1008 and returns -1, with nothing but logging before;
    (c) once the child runs, a [JSON_DATA] message is dropped. *)
Theorem child_only_after_matching_token (H : server_h) (J : json_c)
  (parse_uri : uri_parser) (p : nat) (cred : string) :
  (forall s c0 e0 l,
     credential s = Some cred ->
     let start := session_start H J parse_uri p s c0 e0 in
     spawns (out (run H J parse_uri p start l)) = true ->
     exists pre i post,
       l = pre ++ i :: post /\
       stat (run H J parse_uri p start pre) = st_open /\
       auth_received H J cred (run H J parse_uri p start pre) i) /\
  (forall s c e data rest,
     client_tags_distinct H ->
     credential s = Some cred -> authenticated c = false -> pid c <= 0 ->
     assemble c data = String (JSON_DATA H) rest ->
     ~ token_matches J cred (assemble c data) ->
     exists t,
       receive H J s p c e data 0 true =
         Some (-1, tty_client_remove s p,
               set_buffer c (Some (assemble c data)),
               t ++ [ev_lws_close_reason 1008]) /\
       forallb is_log t = true /\ spawns t = false) /\
  (forall b,
     json_tokener_parse J b = None ->
     json_object_object_get_ex J None "AuthToken" = None ->
     ~ token_matches J cred b) /\
  (forall s c e data rest,
     client_tags_distinct H ->
     may_send s c -> 0 < pid c ->
     assemble c data = String (JSON_DATA H) rest ->
     receive H J s p c e data 0 true =
       Some (0, s, set_buffer c None, [ev_free res_buffer])).
Proof.
  split; [|split; [|split]].
  - intros s c0 e0 l Hc start A.
    apply (run_armed H J parse_uri p cred l start).
    + exact Hc.
    + unfold armed, start. simpl. intros [F|[F|F]]; try discriminate; lia.
    + right. right. exact A.
  - intros s c e data rest (D1 & D2 & D3) Hc Ha Hpid Hb NM.
    unfold receive. rewrite Hb in *. rewrite Hc.
    cbn [authenticated set_buffer]. rewrite Ha, Ascii.eqb_refl.
    cbn [negb andb orb Z.ltb Z.compare after_switch].
    unfold receive_switch.
    destruct (Ascii.eqb_spec (JSON_DATA H) (INPUT H)); [congruence|].
    destruct (Ascii.eqb_spec (JSON_DATA H) (RESIZE_TERMINAL H)); [congruence|].
    rewrite Ascii.eqb_refl. unfold receive_json_data. cbn [pid set_buffer].
    destruct (Z.ltb_spec 0 (pid c)); [lia|]. rewrite Hc.
    destruct (check_auth_token J
                (set_buffer c (Some (String (JSON_DATA H) rest))) cred
                (String (JSON_DATA H) rest)) as [c1 t1] eqn:Ec.
    destruct (check_auth_token_spec _ _ _ _ _ _ Ec)
      as (S1 & L1 & [(M & _)|(_ & ->)]); [contradiction|].
    cbn [authenticated set_buffer]. rewrite Ha. cbn [negb andb after_switch].
    exists t1. repeat split; assumption.
  - intros b Hp Hn (o & tok & E & _). rewrite Hp, Hn in E. discriminate E.
  - intros s c e data rest (D1 & D2 & D3) Hs Hpid Hb.
    rewrite (receive_last_fragment H J s p c e data _ rest Hs Hb).
    unfold receive_switch.
    destruct (Ascii.eqb_spec (JSON_DATA H) (INPUT H)); [congruence|].
    destruct (Ascii.eqb_spec (JSON_DATA H) (RESIZE_TERMINAL H)); [congruence|].
    rewrite Ascii.eqb_refl. unfold receive_json_data. cbn [pid set_buffer].
    destruct (Z.ltb_spec 0 (pid c)); [reflexivity|lia].
Qed.

(** The credential is [s3cret] and the client sends the token [nope] right
    after the handshake: close with 1008, nothing spawned. *)
Lemma child_only_after_matching_token_witness :
  let s := Sample.with_credential (Sample.registered Sample.server)
             (Some "s3cret"%string) in
  let c := set_initial_cmd_index (set_initialized Sample.zero_client true) 3 in
  exists t,
    receive Sample.h Sample.json s 7%nat c Sample.ok
      (Sample.auth_frame "nope") 0 true =
    Some (-1, tty_client_remove s 7%nat,
          set_buffer c (Some (Sample.auth_frame "nope")),
          t ++ [ev_lws_close_reason 1008]) /\
    forallb is_log t = true /\ spawns t = false.
Proof.
  intros s c.
  assert (client_tags_distinct Sample.h) as Hd
    by (repeat split; discriminate).
  assert (~ token_matches Sample.json "s3cret"
            (assemble c (Sample.auth_frame "nope"))) as NM.
  { intros (o & tok & E1 & E2 & E3).
    vm_compute in E1. injection E1 as <-.
    vm_compute in E2. injection E2 as <-.
    vm_compute in E3. discriminate E3. }
  assert (pid c <= 0) as Hp by (simpl; lia).
  exact (proj1 (proj2 (child_only_after_matching_token Sample.h Sample.json
                         Sample.parse_uri 7%nat "s3cret"))
           s c Sample.ok (Sample.auth_frame "nope")
           (advance (Sample.auth_frame "nope")) Hd eq_refl eq_refl Hp
           eq_refl NM).
Defined.

(** * Further properties of [protocol.c] *)

(** ** The registry *)

Lemma list_remove_length (p : nat) (l r : list nat) (found : bool) :
  list_remove p l = (r, found) ->
  List.length l = (List.length r + if found then 1 else 0)%nat.
Proof.
  revert r found. induction l as [|q l IH]; simpl; intros r found E.
  - injection E as <- <-. reflexivity.
  - destruct (Nat.eqb q p).
    + injection E as <- <-. simpl. lia.
    + destruct (list_remove p l) as [r' f'] eqn:Er.
      injection E as <- <-. simpl. rewrite (IH r' f' eq_refl). lia.
Qed.

Lemma list_remove_incl (p q : nat) (l : list nat) :
  In q (fst (list_remove p l)) -> In q l.
Proof.
  induction l as [|a l IH]; simpl; [tauto|].
  destruct (Nat.eqb a p); simpl; [tauto|].
  destruct (list_remove p l) as [r f]. simpl in *. tauto.
Qed.

Lemma list_remove_keeps_NoDup (p : nat) (l : list nat) :
  NoDup l -> NoDup (fst (list_remove p l)).
Proof.
  induction 1 as [|a l Ha Hl IH]; simpl; [constructor|].
  destruct (Nat.eqb a p); simpl; [exact Hl|].
  pose proof (list_remove_incl p a l) as Hin.
  destruct (list_remove p l) as [r f]. simpl in *.
  constructor; tauto.
Qed.

Lemma tty_client_remove_consistent (s : tty_server) (p : nat) :
  registry_consistent s -> registry_consistent (tty_client_remove s p).
Proof.
  unfold registry_consistent, tty_client_remove. intros Hs.
  destruct (list_remove p (clients s)) as [r found] eqn:E.
  pose proof (list_remove_length _ _ _ _ E) as L.
  destruct found; simpl; lia.
Qed.

Lemma tty_client_remove_NoDup (s : tty_server) (p : nat) :
  NoDup (clients s) -> NoDup (clients (tty_client_remove s p)).
Proof.
  intros Hs. pose proof (list_remove_keeps_NoDup p _ Hs) as N.
  unfold tty_client_remove.
  destruct (list_remove p (clients s)) as [r []]; simpl in *; assumption.
Qed.

(** Which server structure a callback leaves behind: the one it found, the
    one with the client removed, or, on establishment, the one with the
    client inserted at the head. *)
Lemma callback_tty_server (H : server_h) (J : json_c)
  (parse_uri : uri_parser) (s s' : tty_server) (p : nat) (c c' : tty_client)
  (reason : lws_callback_reasons) (e : env) (ret : Z) (t : trace) :
  callback_tty H J parse_uri s p c reason e = Some (ret, s', c', t) ->
  s' = s \/ s' = tty_client_remove s p \/
  (reason = LWS_CALLBACK_ESTABLISHED /\
   s' = set_registry s (p :: clients s) (client_count s + 1)).
Proof.
  destruct reason; cbn [callback_tty].
  - destruct (filter_protocol_connection H parse_uri s h).
    intros E. injection E as <- <- <- <-. now left.
  - unfold established. intros E. injection E as <- <- <- <-.
    right. right. split; reflexivity.
  - unfold server_writeable. intros E. callback_cases; tauto.
  - unfold receive, after_switch, receive_switch, receive_json_data,
      check_auth_token, parse_window_size.
    intros E. callback_cases; tauto.
  - unfold closed, tty_client_destroy. intros E. callback_cases; tauto.
  - intros E. injection E as <- <- <- <-. now left.
Qed.

(** X1.  Every callback keeps the registry counter equal to the length of
    the registry list, and keeps the list free of duplicates provided the
    client that is being established is not registered yet. *)
Theorem callback_keeps_registry (H : server_h) (J : json_c)
  (parse_uri : uri_parser) (s s' : tty_server) (p : nat) (c c' : tty_client)
  (reason : lws_callback_reasons) (e : env) (ret : Z) (t : trace) :
  callback_tty H J parse_uri s p c reason e = Some (ret, s', c', t) ->
  registry_consistent s ->
  NoDup (clients s) ->
  (reason = LWS_CALLBACK_ESTABLISHED -> ~ In p (clients s)) ->
  registry_consistent s' /\ NoDup (clients s').
Proof.
  intros E Hc Hn Hp.
  destruct (callback_tty_server _ _ _ _ _ _ _ _ _ _ _ _ E)
    as [->|[->|[Hr ->]]].
  - split; assumption.
  - split; [now apply tty_client_remove_consistent
           |now apply tty_client_remove_NoDup].
  - split.
    + unfold registry_consistent in *. simpl. lia.
    + simpl. constructor; auto.
Qed.

(** A second client is established on the sample server that holds the
    client at address 7. *)
Lemma callback_keeps_registry_witness :
  let s := Sample.registered Sample.server in
  exists s' c' t,
    callback_tty Sample.h Sample.json Sample.parse_uri s 8%nat
      Sample.zero_client LWS_CALLBACK_ESTABLISHED Sample.ok =
      Some (0, s', c', t) /\
    registry_consistent s' /\ NoDup (clients s').
Proof.
  intros s. eexists. eexists. eexists. split; [reflexivity|].
  eapply (callback_keeps_registry Sample.h Sample.json Sample.parse_uri s _
            8%nat Sample.zero_client _ LWS_CALLBACK_ESTABLISHED Sample.ok).
  - reflexivity.
  - reflexivity.
  - simpl. constructor; [simpl; tauto|constructor].
  - intros _. simpl. lia.
Defined.

(** X2.  A connection that is established and then closed before any child
    was started leaves the server structure exactly as it was, and the
    close signals and reaps nothing. *)
Theorem establish_then_close_restores (s : tty_server) (p : nat)
  (c : tty_client) (e e' : env) :
  let '(_, s1, c1, _) := established s p c e in
  let '(_, s2, _, t) := closed s1 p c1 e' in
  s2 = s /\
  count_events is_kill t = O /\ count_events is_waitpid t = O /\
  count_events is_close t = O.
Proof.
  unfold established, closed, tty_client_destroy, tty_client_remove.
  cbn [running negb orb clients set_registry list_remove client_count].
  rewrite Nat.eqb_refl. cbn [once client_count set_registry].
  split.
  - destruct s. unfold set_registry. simpl. f_equal. lia.
  - rewrite !count_events_app.
    destruct (cleanup_trace_counts
                {| running := false; initialized := false;
                   initial_cmd_index := 0; authenticated := false;
                   hostname := peer_hostname e; address := peer_address e;
                   size := size c; buffer := None; pid := pid c;
                   pty := pty c; state := STATE_INIT;
                   pty_buffer := pty_buffer c; pty_len := 0 |})
      as (K & W & C & _).
    rewrite K, W, C.
    destruct (once s && (client_count s + 1 - 1 =? 0)); repeat split.
Qed.

(** ** Ending a session *)

(** Closes a goal [close_discipline] on a concrete outcome. *)
Ltac close_discipline_case :=
  unfold close_discipline;
  first
    [ right; split; [auto|]; split; reflexivity
    | left; split; [reflexivity|]; split; [reflexivity|];
      split; [reflexivity|];
      eexists; split;
      [ cbn; first [left; reflexivity | right; left; reflexivity
                   | right; right; left; reflexivity
                   | right; right; right; left; reflexivity]
      | unfold LWS_CLOSE_STATUS_NORMAL, LWS_CLOSE_STATUS_POLICY_VIOLATION,
          LWS_CLOSE_STATUS_UNEXPECTED_CONDITION; tauto ] ].

(** X3.  The writeable and the receive callback return [-1], 0 or 1.  They
    return [-1] exactly when they have removed the client from the registry
    and set a close reason (one, and one of 1000, 1008, 1011); when they
    return 0 or 1 the registry is untouched and no close reason is set. *)
Theorem close_reason_with_negative_return (H : server_h) (J : json_c)
  (s : tty_server) (p : nat) (c : tty_client) (e : env) (r : result) :
  (server_writeable H s p c e = Some r -> close_discipline s p r) /\
  (forall data remaining final,
     receive H J s p c e data remaining final = Some r ->
     close_discipline s p r).
Proof.
  destruct r as [[[ret s'] c'] t]. split.
  - unfold server_writeable. intros E.
    callback_cases; close_discipline_case.
  - intros data remaining final.
    unfold receive, after_switch, receive_switch, receive_json_data,
      check_auth_token, parse_window_size.
    intros E. callback_cases; close_discipline_case.
Qed.

(** The token [nope] against the credential [s3cret]: return [-1], client
    7 removed, close reason 1008. *)
Lemma close_reason_with_negative_return_witness :
  let s := Sample.with_credential (Sample.registered Sample.server)
             (Some "s3cret"%string) in
  let c := set_initial_cmd_index (set_initialized Sample.zero_client true) 3 in
  exists r,
    receive Sample.h Sample.json s 7%nat c Sample.ok
      (Sample.auth_frame "nope") 0 true = Some r /\
    close_discipline s 7%nat r /\ fst (fst (fst r)) = -1.
Proof.
  intros s c. eexists. split; [reflexivity|]. split; [|reflexivity].
  apply (proj2 (close_reason_with_negative_return Sample.h Sample.json s
                  7%nat c Sample.ok _) (Sample.auth_frame "nope") 0 true).
  reflexivity.
Defined.

Lemma tty_client_remove_once (s : tty_server) (p : nat) :
  once (tty_client_remove s p) = once s.
Proof.
  unfold tty_client_remove. destruct (list_remove p (clients s)) as [l []];
    reflexivity.
Qed.

Lemma destroy_never_exits (s : tty_server) (p : nat) (c : tty_client)
  (e : env) :
  count_events is_exit (snd (tty_client_destroy s p c e)) = O.
Proof.
  unfold tty_client_destroy, cleanup_trace.
  destruct (negb (running c) || (pid c <=? 0)); cbn [snd].
  - destruct (buffer c), (pty_buffer c); reflexivity.
  - rewrite !count_events_app, count_events_repeat.
    cbn [buffer pty_buffer set_running].
    destruct (negb (kill_ret e =? 0)), (buffer c), (pty_buffer c);
      reflexivity.
Qed.

(** X4.  The closed callback destroys the client and then ends the server
    process with [exit(0)], as its last call, exactly when [once] is set
    and the registry counter has reached zero; in every other case it makes
    no [exit] call. *)
Theorem closed_exits_with_last_client (s : tty_server) (p : nat)
  (c : tty_client) (e : env) :
  let '(ret, s', _, t) := closed s p c e in
  ret = 0 /\ s' = tty_client_remove s p /\
  (once s = true -> client_count s' = 0 ->
   exists t0, t = t0 ++ [ev_exit 0] /\ count_events is_exit t0 = O) /\
  (once s = false \/ client_count s' <> 0 ->
   count_events is_exit t = O).
Proof.
  unfold closed.
  pose proof (destroy_never_exits s p c e) as N.
  assert (fst (fst (tty_client_destroy s p c e)) = tty_client_remove s p)
    as Hs.
  { unfold tty_client_destroy.
    destruct (negb (running c) || (pid c <=? 0)); reflexivity. }
  destruct (tty_client_destroy s p c e) as [[s' c'] t]. simpl in N, Hs.
  subst s'. rewrite tty_client_remove_once.
  split; [reflexivity|]. split; [reflexivity|]. split.
  - intros Ho Hz. rewrite Ho, Hz. cbn [Z.eqb andb].
    exists (t ++ [ev_log LLL_NOTICE (msg_ws_closed 0);
                  ev_log LLL_NOTICE msg_exiting_once]).
    split.
    + rewrite <- !app_assoc. reflexivity.
    + rewrite count_events_app, N. reflexivity.
  - intros Hn. rewrite !count_events_app, N.
    destruct (once s); [|reflexivity].
    destruct (Z.eqb_spec (client_count (tty_client_remove s p)) 0) as [Z0|Z0];
      [|reflexivity].
    destruct Hn as [Hn|Hn]; [discriminate|contradiction].
Qed.

(** With [once] set and client 7 the only one registered, closing it ends
    the process. *)
Lemma closed_exits_with_last_client_witness :
  let s :=
    {| clients := [7%nat]; client_count := 1; credential := None;
       command := "bash"; reconnect := 10; prefs_json := "{}";
       sig_code := 1; check_origin := false; readonly := false;
       once := true; max_clients := 0 |} in
  exists t0, snd (closed s 7%nat Sample.running_client Sample.ok) =
             t0 ++ [ev_exit 0] /\ count_events is_exit t0 = O.
Proof.
  intros s.
  pose proof (closed_exits_with_last_client s 7%nat Sample.running_client
                Sample.ok) as W.
  destruct (closed s 7%nat Sample.running_client Sample.ok)
    as [[[ret s'] c'] t].
  destruct W as (_ & -> & W & _).
  exact (W eq_refl eq_refl).
Defined.

(** X5.  [tty_client_destroy] signals, waits for and closes only the child
    of the client: every [kill] and [waitpid] it makes is for
    [client->pid], which is then positive, with the configured signal, and
    every [close] is of [client->pty]; without a running child it makes
    none of these calls. *)
Theorem destroy_signals_only_child (s : tty_server) (p : nat)
  (c : tty_client) (e : env) (ev : event) :
  In ev (snd (tty_client_destroy s p c e)) ->
  is_kill ev || is_waitpid ev || is_close ev = true ->
  running c = true /\ 0 < pid c /\
  (ev = ev_kill (pid c) (sig_code s) \/ ev = ev_waitpid (pid c) \/
   ev = ev_close (pty c)).
Proof.
  assert (forall c0, In ev (cleanup_trace c0) ->
                     is_kill ev || is_waitpid ev || is_close ev = false)
    as Hclean.
  { intros c0. unfold cleanup_trace.
    destruct (buffer c0), (pty_buffer c0); simpl;
      intuition (subst; reflexivity). }
  unfold tty_client_destroy.
  destruct (negb (running c) || (pid c <=? 0)) eqn:G; cbn [snd].
  - intros Hin Hk. rewrite (Hclean _ Hin) in Hk. discriminate.
  - apply orb_false_iff in G. destruct G as [Gr Gp].
    apply negb_false_iff in Gr. apply Z.leb_gt in Gp.
    intros Hin Hk. split; [exact Gr|]. split; [exact Gp|].
    apply in_app_or in Hin. destruct Hin as [Hin|Hin].
    { simpl in Hin. destruct Hin as [<-|[<-|[]]];
        [discriminate|left; reflexivity]. }
    apply in_app_or in Hin. destruct Hin as [Hin|Hin].
    { destruct (negb (kill_ret e =? 0)); simpl in Hin;
        [destruct Hin as [<-|[]]; discriminate|contradiction]. }
    apply in_app_or in Hin. destruct Hin as [Hin|Hin].
    { apply repeat_spec in Hin. subst ev. right. left. reflexivity. }
    apply in_app_or in Hin. destruct Hin as [Hin|Hin].
    { simpl in Hin. destruct Hin as [<-|[<-|[]]];
        [discriminate|right; right; reflexivity]. }
    rewrite (Hclean _ Hin) in Hk. discriminate.
Qed.

(** The child 42 of the sample session is sent the signal 1. *)
Lemma destroy_signals_only_child_witness :
  let s := Sample.registered Sample.server in
  let c := Sample.running_client in
  running c = true /\ 0 < pid c /\
  (ev_kill 42 1 = ev_kill (pid c) (sig_code s) \/
   ev_kill 42 1 = ev_waitpid (pid c) \/
   ev_kill 42 1 = ev_close (pty c)).
Proof.
  intros s c.
  apply (destroy_signals_only_child s 7%nat c Sample.ok (ev_kill 42 1)).
  - simpl. right. left. reflexivity.
  - reflexivity.
Defined.

(** ** Messages from the client *)

Lemma string_append_assoc (a b c : string) :
  ((a ++ b) ++ c = a ++ (b ++ c))%string.
Proof. induction a as [|x a IH]; simpl; [reflexivity|now rewrite IH]. Qed.

Lemma assemble_append (c : tty_client) (d1 d2 : string) :
  (assemble c d1 ++ d2)%string = assemble c (d1 ++ d2).
Proof.
  unfold assemble. destruct (buffer c); [apply string_append_assoc|reflexivity].
Qed.

(** X6.  A fragment that is not the last one of its message (payload
    remaining, or not the final fragment) and that the callback accepts
    with 0 is only appended to the assembly buffer: nothing is called and
    the server is unchanged; and the callback then treats the next fragment
    exactly as it would treat both fragments delivered as one. *)
Theorem fragments_reassemble (H : server_h) (J : json_c) (s s1 : tty_server)
  (p : nat) (c c1 : tty_client) (e1 e2 : env) (d1 d2 : string)
  (r1 r2 : Z) (f1 f2 : bool) (t1 : trace) :
  0 < r1 \/ f1 = false ->
  receive H J s p c e1 d1 r1 f1 = Some (0, s1, c1, t1) ->
  s1 = s /\ t1 = [] /\ c1 = set_buffer c (Some (assemble c d1)) /\
  receive H J s p c1 e2 d2 r2 f2 = receive H J s p c e2 (d1 ++ d2) r2 f2.
Proof.
  intros Hfrag. unfold receive at 1.
  destruct (assemble c d1) as [|cmd rest] eqn:Eb; [discriminate|].
  destruct (match credential s with Some _ => true | None => false end
            && negb (authenticated (set_buffer c (Some (String cmd rest))))
            && negb (Ascii.eqb cmd (JSON_DATA H))); [discriminate|].
  assert ((0 <? r1) || negb f1 = true) as ->.
  { destruct Hfrag as [L| ->]; [|apply orb_true_r].
    apply Z.ltb_lt in L. now rewrite L. }
  intros E. injection E as <- <- <-.
  repeat split. unfold receive.
  assert (assemble (set_buffer c (Some (String cmd rest))) d2 =
          assemble c (d1 ++ d2)) as ->.
  { rewrite <- assemble_append, Eb. reflexivity. }
  reflexivity.
Qed.

(** [INPUT "ls\n"] arrives as the fragments ["0l"] and ["s\n"]: the PTY
    gets the whole payload in one write. *)
Lemma fragments_reassemble_witness :
  let s := Sample.registered Sample.server in
  let c := Sample.running_client in
  let c1 := set_buffer c (Some "0l"%string) in
  receive Sample.h Sample.json s 7%nat c1 Sample.ok "s" 0 true =
  Some (0, s, c, [ev_write 5 "ls"; ev_free res_buffer]).
Proof.
  intros s c c1.
  assert (0 < 0 \/ false = false) as H1 by (right; reflexivity).
  destruct (fragments_reassemble Sample.h Sample.json s s 7%nat c c1
              Sample.ok Sample.ok "0l" "s" 0 0 false true [] H1 eq_refl)
    as (_ & _ & _ & W).
  rewrite W. reflexivity.
Defined.

Lemma set_buffer_None_id (c : tty_client) :
  buffer c = None -> set_buffer c None = c.
Proof. destruct c. simpl. intros ->. reflexivity. Qed.

(** One [INPUT] message on a session that may write to its PTY. *)
Lemma input_written (H : server_h) (J : json_c) (s : tty_server) (p : nat)
  (c : tty_client) (e : env) (d : string) :
  may_send s c -> buffer c = None -> pty c <> 0 -> readonly s = false ->
  write_ret e <> -1 ->
  receive H J s p c e (String (INPUT H) d) 0 true =
  Some (0, s, c, [ev_write (pty c) d; ev_free res_buffer]).
Proof.
  intros Hs Hb Hpty Hro Hw.
  rewrite (receive_last_fragment H J s p c e _ (INPUT H) d Hs)
    by (unfold assemble; now rewrite Hb).
  unfold receive_switch. rewrite Ascii.eqb_refl, Hro. cbn [pty set_buffer].
  destruct (Z.eqb_spec (pty c) 0); [contradiction|].
  destruct (Z.eqb_spec (write_ret e) (-1)); [contradiction|].
  cbn [after_switch buffer set_buffer advance].
  change (set_buffer (set_buffer c (Some (String (INPUT H) d))) None)
    with (set_buffer c None).
  now rewrite (set_buffer_None_id c Hb).
Qed.

(** X7.  On an open session that may write to its PTY (not read-only, PTY
    handle set, authenticated if need be), a sequence of complete [INPUT]
    messages makes one [write] per message, of exactly the bytes after the
    tag and in the order of arrival, whatever byte count [write] returns
    other than [-1]; nothing is retried or kept, and the session stays as it
    was. *)
Theorem input_written_in_order (H : server_h) (J : json_c)
  (parse_uri : uri_parser) (p : nat) (e : env) (payloads : list string)
  (st : session) :
  stat st = st_open ->
  may_send (srv st) (cli st) -> buffer (cli st) = None ->
  pty (cli st) <> 0 -> readonly (srv st) = false ->
  write_ret e <> -1 ->
  run H J parse_uri p st (messages (INPUT H) e payloads) =
  {| srv := srv st; cli := cli st; threads := threads st;
     out := out st ++
            flat_map (fun d => [ev_write (pty (cli st)) d; ev_free res_buffer])
              payloads;
     stat := st_open |}.
Proof.
  intros Ho Hs Hb Hpty Hro Hw. revert st Ho Hs Hb Hpty Hro.
  induction payloads as [|d l IH]; intros st Ho Hs Hb Hpty Hro.
  - simpl. rewrite app_nil_r. destruct st. simpl in Ho. now subst.
  - cbn [messages map run fold_left].
    fold (messages (INPUT H) e l).
    fold (run H J parse_uri p
            (step H J parse_uri p st
               (in_receive (String (INPUT H) d) 0 true e))
            (messages (INPUT H) e l)).
    assert (step H J parse_uri p st
              (in_receive (String (INPUT H) d) 0 true e) =
            {| srv := srv st; cli := cli st; threads := threads st;
               out := out st ++ [ev_write (pty (cli st)) d; ev_free res_buffer];
               stat := st_open |}) as ->.
    { unfold step. rewrite Ho. cbn [callback_tty].
      rewrite (input_written H J _ p _ e d Hs Hb Hpty Hro Hw).
      cbn [after_callback started_threads Z.eqb]. now rewrite Nat.add_0_r. }
    rewrite IH by (assumption || reflexivity).
    cbn [srv cli threads out flat_map]. now rewrite <- app_assoc.
Qed.

(** The client types [ls] and then [pwd]. *)
Lemma input_written_in_order_witness :
  out (run Sample.h Sample.json Sample.parse_uri 7%nat
         {| srv := Sample.registered Sample.server;
            cli := Sample.running_client; threads := O; out := [];
            stat := st_open |}
         (messages (INPUT Sample.h) Sample.ok ["ls"%string; "pwd"%string])) =
  [ev_write 5 "ls"; ev_free res_buffer; ev_write 5 "pwd"; ev_free res_buffer].
Proof.
  rewrite (input_written_in_order Sample.h Sample.json Sample.parse_uri 7%nat
             Sample.ok ["ls"%string; "pwd"%string]
             {| srv := Sample.registered Sample.server;
                cli := Sample.running_client; threads := O; out := [];
                stat := st_open |});
    try reflexivity.
  - left. reflexivity.
  - simpl. lia.
  - simpl. lia.
Defined.

(** X8.  A complete [RESIZE_TERMINAL] message whose JSON lacks [columns] or
    [rows] is logged as an error and dropped: the callback returns 0, the
    stored window size is unchanged, no [ioctl] is made, and the assembly
    buffer is released. *)
Theorem resize_without_fields_ignored (H : server_h) (J : json_c)
  (s : tty_server) (p : nat) (c : tty_client) (e : env) (data rest : string) :
  INPUT H <> RESIZE_TERMINAL H ->
  may_send s c ->
  assemble c data = String (RESIZE_TERMINAL H) rest ->
  json_object_object_get_ex J (json_tokener_parse J rest) "columns" = None \/
  json_object_object_get_ex J (json_tokener_parse J rest) "rows" = None ->
  exists m,
    receive H J s p c e data 0 true =
    Some (0, s, set_buffer c None, [ev_log LLL_ERR m; ev_free res_buffer]).
Proof.
  intros Hd Hs Hb Hmiss.
  rewrite (receive_last_fragment H J s p c e data _ rest Hs Hb).
  unfold receive_switch.
  destruct (Ascii.eqb_spec (RESIZE_TERMINAL H) (INPUT H)); [congruence|].
  rewrite Ascii.eqb_refl. cbn [advance]. unfold parse_window_size.
  destruct (json_object_object_get_ex J (json_tokener_parse J rest) "columns")
    as [oc|] eqn:Ec.
  - destruct Hmiss as [Hm|Hm]; [discriminate|]. rewrite Hm.
    eexists. reflexivity.
  - eexists. reflexivity.
Qed.

(** The frame [RESIZE_TERMINAL {"columns":132}] has no rows. *)
Lemma resize_without_fields_ignored_witness :
  let s := Sample.registered Sample.server in
  let c := Sample.running_client in
  let frame := ("1{" ++ Sample.quoted "columns" ++ ":132}")%string in
  exists m,
    receive Sample.h Sample.json s 7%nat c Sample.ok frame 0 true =
    Some (0, s, set_buffer c None, [ev_log LLL_ERR m; ev_free res_buffer]).
Proof.
  intros s c frame.
  apply (resize_without_fields_ignored Sample.h Sample.json s 7%nat c
           Sample.ok frame (advance frame)).
  - discriminate.
  - left. reflexivity.
  - reflexivity.
  - right. reflexivity.
Defined.

(** X9.  A [RESIZE_TERMINAL] message that arrives before the child exists
    (PTY handle not positive) makes no [ioctl] but stores the window size,
    and [thread_cb] applies the stored size to the new PTY right after
    [forkpty] when both dimensions are positive. *)
Theorem early_resize_applied_at_spawn (H : server_h) (J : json_c)
  (s : tty_server) (p : nat) (c : tty_client) (e : env) (data rest : string)
  (sz : winsize) (t0 : trace) (child fd : Z) :
  INPUT H <> RESIZE_TERMINAL H ->
  may_send s c ->
  assemble c data = String (RESIZE_TERMINAL H) rest ->
  pty c <= 0 ->
  parse_window_size J rest (size c) = (true, sz, t0) ->
  0 < ws_row sz -> 0 < ws_col sz -> child <> -1 ->
  let c1 := set_size (set_buffer c None) sz in
  receive H J s p c e data 0 true =
    Some (0, s, c1, t0 ++ [ev_free res_buffer]) /\
  thread_cb c1 child fd =
    (set_child c1 child fd,
     [ev_forkpty child; ev_log LLL_NOTICE (msg_started_process child);
      ev_ioctl_TIOCSWINSZ fd sz; ev_uv_read_start]).
Proof.
  intros Hd Hs Hb Hpty Hparse Hr Hc Hchild c1. split.
  - rewrite (receive_last_fragment H J s p c e data _ rest Hs Hb).
    unfold receive_switch.
    destruct (Ascii.eqb_spec (RESIZE_TERMINAL H) (INPUT H)); [congruence|].
    rewrite Ascii.eqb_refl. cbn [advance size set_buffer pty].
    rewrite Hparse.
    destruct (Z.ltb_spec 0 (pty c)); [lia|].
    rewrite andb_false_r. reflexivity.
  - unfold thread_cb.
    destruct (Z.eqb_spec child (-1)); [contradiction|].
    cbn [size set_child c1 set_size pty].
    apply Z.ltb_lt in Hr, Hc. rewrite Hr, Hc. reflexivity.
Qed.

(** The client asks for 132 columns by 40 rows before the child 42 is
    started on descriptor 5. *)
Lemma early_resize_applied_at_spawn_witness :
  let s := Sample.registered Sample.server in
  let c := set_initial_cmd_index (set_initialized Sample.zero_client true) 3 in
  let sz := {| ws_row := 40; ws_col := 132; ws_xpixel := 0; ws_ypixel := 0 |} in
  let c1 := set_size (set_buffer c None) sz in
  receive Sample.h Sample.json s 7%nat c Sample.ok Sample.resize_frame 0 true =
    Some (0, s, c1, [ev_free res_buffer]) /\
  thread_cb c1 42 5 =
    (set_child c1 42 5,
     [ev_forkpty 42; ev_log LLL_NOTICE (msg_started_process 42);
      ev_ioctl_TIOCSWINSZ 5 sz; ev_uv_read_start]).
Proof.
  intros s c sz c1.
  apply (early_resize_applied_at_spawn Sample.h Sample.json s 7%nat c
           Sample.ok Sample.resize_frame (advance Sample.resize_frame) sz []
           42 5);
    try reflexivity; try discriminate; try (left; reflexivity);
    try (simpl; lia).
Defined.

(** ** Output of the PTY *)

Lemma substring_0_idem (n : nat) (s : string) :
  substring 0 n (substring 0 n s) = substring 0 n s.
Proof.
  revert n. induction s as [|a s IH]; intros [|n]; simpl; try reflexivity.
  now rewrite IH.
Qed.

(** One chunk read from the PTY and the writeable callback that follows. *)
Lemma relay_one (H : server_h) (J : json_c) (parse_uri : uri_parser)
  (p : nat) (e : env) (n : Z) (buf : string) (st : session) :
  relaying st -> 0 < n ->
  let st' := run H J parse_uri p st [in_read n buf; in_writeable e] in
  relaying st' /\
  written_frames (out st') =
    written_frames (out st) ++
    [String (OUTPUT H) (substring 0 (Z.to_nat n) buf)].
Proof.
  intros (Ho & Hi & Hr & Hs) Hn. unfold run. cbn [fold_left].
  assert (step H J parse_uri p st (in_read n buf) =
          {| srv := srv st;
             cli := set_slot (cli st) STATE_READY
                      (Some (substring 0 (Z.to_nat n) buf)) n;
             threads := threads st;
             out := out st ++ [ev_free res_read_buf];
             stat := st_open |}) as ->.
  { unfold step. rewrite Ho. unfold read_cb. rewrite Hr. cbn [negb].
    assert (pty_state_eqb (state (cli st)) STATE_READY = false) as ->
      by (destruct (state (cli st)); try reflexivity; contradiction).
    destruct (Z.leb_spec n 0); [lia|reflexivity]. }
  unfold step. cbn [stat callback_tty cli srv]. unfold server_writeable.
  cbn [initialized set_slot state pty_state_eqb pty_len pty_buffer negb].
  rewrite Hi. cbn [negb].
  destruct (Z.leb_spec n 0); [lia|].
  cbn [after_callback stat cli out Z.eqb]. split.
  - repeat split; try assumption. cbn [state set_slot]. discriminate.
  - rewrite !written_frames_app, substring_0_idem.
    destruct (lws_write_ret e mod 2 ^ 64 <? n + 1); simpl;
      now rewrite ?app_nil_r.
Qed.

(** X10.  While the session relays, each chunk that libuv reads from the
    PTY is sent by the next writeable callback as one frame: the [OUTPUT]
    tag followed by exactly the [nread] bytes read; the frames go out in the
    order of the reads, and the session is ready for the next chunk. *)
Theorem output_relayed_in_order (H : server_h) (J : json_c)
  (parse_uri : uri_parser) (p : nat) (e : env) (reads : list (Z * string))
  (st : session) :
  relaying st ->
  Forall (fun r => 0 < fst r) reads ->
  let st' := run H J parse_uri p st (relay e reads) in
  relaying st' /\
  written_frames (out st') =
    written_frames (out st) ++
    map (fun r => String (OUTPUT H) (substring 0 (Z.to_nat (fst r)) (snd r)))
      reads.
Proof.
  intros Hrel Hall. revert st Hrel.
  induction Hall as [|[n buf] l Hn Hl IH]; intros st Hrel.
  - simpl. rewrite app_nil_r. split; [exact Hrel|reflexivity].
  - cbn [relay flat_map app]. fold (relay e l).
    change (in_read (fst (n, buf)) (snd (n, buf)) :: in_writeable e :: relay e l)
      with ([in_read n buf; in_writeable e] ++ relay e l).
    unfold run. rewrite fold_left_app.
    fold (run H J parse_uri p st [in_read n buf; in_writeable e]).
    destruct (relay_one H J parse_uri p e n buf st Hrel Hn) as (R1 & W1).
    destruct (IH _ R1) as (R2 & W2).
    split; [exact R2|].
    unfold run in W2 |- *. rewrite W2.
    fold (run H J parse_uri p st [in_read n buf; in_writeable e]).
    rewrite W1, <- app_assoc. reflexivity.
Qed.

(** The child prints [abc] and then [de]; libuv hands over buffers with room
    to spare. *)
Lemma output_relayed_in_order_witness :
  written_frames
    (out (run Sample.h Sample.json Sample.parse_uri 7%nat
            {| srv := Sample.registered Sample.server;
               cli := Sample.running_client; threads := O; out := [];
               stat := st_open |}
            (relay Sample.ok [(3, "abcxxx"%string); (2, "dexxxx"%string)]))) =
  ["0abc"%string; "0de"%string].
Proof.
  assert (relaying
            {| srv := Sample.registered Sample.server;
               cli := Sample.running_client; threads := O; out := [];
               stat := st_open |}) as Hrel
    by (repeat split; discriminate).
  assert (Forall (fun r : Z * string => 0 < fst r)
            [(3, "abcxxx"%string); (2, "dexxxx"%string)]) as Hall
    by (repeat constructor).
  exact (proj2 (output_relayed_in_order Sample.h Sample.json Sample.parse_uri
                  7%nat Sample.ok _ _ Hrel Hall)).
Defined.

(** X11.  When the slot holds a chunk, the writeable callback hands it to
    [lws_write], releases it, marks the slot [STATE_DONE] and returns 0
    whatever [lws_write] returns.  The write is logged as an error only when
    the return value is between 0 and the frame length: a negative return
    value is compared as a [size_t], so a failed write passes without log
    and without closing the session. *)
Theorem output_write_failure_unnoticed (H : server_h) (s : tty_server)
  (p : nat) (c : tty_client) (e : env) (chunk : string) :
  initialized c = true -> state c = STATE_READY ->
  0 < pty_len c < 2 ^ 63 -> pty_buffer c = Some chunk ->
  - 2 ^ 31 <= lws_write_ret e < 2 ^ 31 ->
  server_writeable H s p c e =
  Some (0, s, set_slot c STATE_DONE None (pty_len c),
        [ev_lws_write
           (String (OUTPUT H) (substring 0 (Z.to_nat (pty_len c)) chunk))
           (lws_write_ret e)] ++
        (if (0 <=? lws_write_ret e) && (lws_write_ret e <? pty_len c + 1)
         then [ev_log LLL_ERR msg_write_data_to_ws] else []) ++
        [ev_free res_pty_buffer]).
Proof.
  intros Hi Hs Hlen Hb Hret. unfold server_writeable.
  rewrite Hi, Hs, Hb. cbn [negb pty_state_eqb].
  destruct (Z.leb_spec (pty_len c) 0); [lia|].
  assert ((lws_write_ret e mod 2 ^ 64 <? pty_len c + 1) =
          (0 <=? lws_write_ret e) && (lws_write_ret e <? pty_len c + 1))
    as ->; [|reflexivity].
  destruct (Z.leb_spec 0 (lws_write_ret e)) as [Hp|Hneg]; cbn [andb].
  - rewrite Z.mod_small by lia. reflexivity.
  - replace (lws_write_ret e)
      with ((lws_write_ret e + 2 ^ 64) + (-1) * 2 ^ 64) by lia.
    rewrite Z_mod_plus_full, Z.mod_small by lia.
    apply Z.ltb_ge. lia.
Qed.

(** [lws_write] fails with [-1] on the chunk [abc]. *)
Lemma output_write_failure_unnoticed_witness :
  let s := Sample.registered Sample.server in
  let c := set_slot Sample.running_client STATE_READY (Some "abc"%string) 3 in
  let e :=
    {| gethostname := "host"; peer_hostname := "peer";
       peer_address := "10.0.0.2"; lws_write_ret := -1; write_ret := 1;
       ioctl_ret := 0; uv_thread_create_ret := 0; kill_ret := 0;
       waitpid_eintr := O |} in
  server_writeable Sample.h s 7%nat c e =
  Some (0, s, set_slot c STATE_DONE None 3,
        [ev_lws_write "0abc" (-1); ev_free res_pty_buffer]).
Proof.
  intros s c e.
  apply (output_write_failure_unnoticed Sample.h s 7%nat c e "abc");
    try reflexivity; simpl; lia.
Defined.

(** ** Memory safety and the slot along a session *)

(** The receive callback leaves the slot to [read_cb] and the writeable
    callback. *)
Lemma receive_slot (H : server_h) (J : json_c) (s s' : tty_server)
  (p : nat) (c c' : tty_client) (e : env) (data : string) (remaining : Z)
  (final : bool) (ret : Z) (t : trace) :
  receive H J s p c e data remaining final = Some (ret, s', c', t) ->
  state c' = state c /\ pty_len c' = pty_len c /\
  pty_buffer c' = pty_buffer c.
Proof.
  unfold receive, after_switch, receive_switch, receive_json_data,
    check_auth_token, parse_window_size.
  intros E. callback_cases; repeat split.
Qed.

(** The receive callback reads inside the assembly buffer as soon as the
    fragment has a byte. *)
Lemma receive_defined (H : server_h) (J : json_c) (s : tty_server) (p : nat)
  (c : tty_client) (e : env) (data : string) (remaining : Z) (final : bool) :
  data <> EmptyString ->
  receive H J s p c e data remaining final <> None.
Proof.
  intros Hd. unfold receive.
  destruct (assemble c data) as [|cmd rest] eqn:Eb.
  { unfold assemble in Eb. destruct (buffer c) as [b|]; [|contradiction].
    destruct b; simpl in Eb; [contradiction|discriminate]. }
  destruct (match credential s with Some _ => true | None => false end
            && negb (authenticated (set_buffer c (Some (String cmd rest))))
            && negb (Ascii.eqb cmd (JSON_DATA H))); [discriminate|].
  destruct ((0 <? remaining) || negb final); [discriminate|].
  unfold after_switch.
  destruct (receive_switch H J s p (set_buffer c (Some (String cmd rest))) e
              cmd (String cmd rest)) as [s' c' t|r]; [|discriminate].
  destruct (buffer c'); discriminate.
Qed.

Section Safety.

Variable H : server_h.
Variable J : json_c.
Variable parse_uri : uri_parser.
Variable p : nat.

(** What a step keeps besides the handshake invariant: the slot invariant,
    a nonnegative slot length, and defined behaviour. *)
Lemma step_safe (st : session) (i : input) :
  handshake_inv H st -> delivers_bytes i ->
  slot_inv (cli st) /\ 0 <= pty_len (cli st) /\ stat st <> st_undefined ->
  let st' := step H J parse_uri p st i in
  slot_inv (cli st') /\ 0 <= pty_len (cli st') /\ stat st' <> st_undefined.
Proof.
  intros Inv Hd (Hslot & Hlen & Hdef) st'. unfold st', step.
  destruct (stat st) eqn:Ho;
    try (repeat split; try assumption; congruence).
  destruct i as [e|data remaining final e|child fd|nread buf].
  - cbn [callback_tty]. unfold server_writeable.
    destruct (initialized (cli st)) eqn:Ei; cbn [negb].
    + destruct (pty_state_eqb (state (cli st)) STATE_READY) eqn:Es; cbn [negb].
      2: { cbn. repeat split; try assumption; discriminate. }
      destruct (Z.leb_spec (pty_len (cli st)) 0) as [L|L].
      { cbn. repeat split; try assumption; discriminate. }
      assert (state (cli st) = STATE_READY) as Hs
        by (destruct (state (cli st)); try discriminate; reflexivity).
      destruct (pty_buffer (cli st)) as [chunk|] eqn:Eb.
      2: { elim (Hslot Hs L). exact Eb. }
      cbn. repeat split; try assumption; try discriminate.
    + destruct Inv as (k & m & Hk & _ & _ & _ & Hx).
      destruct Hx as [Hx|[Hx _]]; [|congruence].
      destruct (Z.eqb_spec (initial_cmd_index (cli st)) (sizeof_initial_cmds H))
        as [E3|E3].
      { cbn. repeat split; try assumption; discriminate. }
      assert (k < 3)%nat as Hk3.
      { unfold sizeof_initial_cmds in E3. simpl in E3. lia. }
      destruct (send_initial_message H (srv st) e (initial_cmd_index (cli st)))
        as [frame|] eqn:Ef.
      2: { unfold send_initial_message in Ef. rewrite Hx, Nat2Z.id in Ef.
           destruct (Z.ltb_spec (Z.of_nat k) 0); [lia|].
           destruct (nth_error (initial_cmds H) k) eqn:En; [discriminate|].
           apply nth_error_None in En. simpl in En. lia. }
      destruct (lws_write_ret e <? 0); cbn;
        repeat split; try assumption; discriminate.
  - cbn [callback_tty]. simpl in Hd.
    destruct (receive H J (srv st) p (cli st) e data remaining final)
      as [[[[ret s'] c'] t]|] eqn:Er.
    2: { elim (receive_defined H J _ _ _ _ _ _ _ Hd Er). }
    destruct (receive_slot _ _ _ _ _ _ _ _ _ _ _ _ _ Er) as (Q1 & Q2 & Q3).
    cbn [after_callback cli stat]. unfold slot_inv. rewrite Q1, Q2, Q3.
    repeat split; try assumption. destruct (ret =? 0); discriminate.
  - destruct (threads st);
      [repeat split; try assumption; congruence|].
    unfold thread_cb. destruct (child =? -1); cbn;
      repeat split; try assumption; discriminate.
  - destruct (read_cb (cli st) nread buf) as [c' t| |] eqn:Er;
      try (repeat split; try assumption; congruence).
    pose proof (read_cb_length_nonneg _ _ _ _ _ Hlen Er) as Hlen'.
    cbn [cli stat]. repeat split; try assumption; try discriminate.
    unfold read_cb in Er.
    destruct (negb (running (cli st))).
    { injection Er as <- _. exact Hslot. }
    destruct (pty_state_eqb (state (cli st)) STATE_READY); [discriminate|].
    destruct (nread <=? 0).
    + destruct ((nread =? UV_ENOBUFS) || (nread =? 0)); [discriminate|].
      injection Er as <- _. unfold slot_inv. cbn. lia.
    + injection Er as <- _. unfold slot_inv. cbn. discriminate.
Qed.

Lemma run_safe (l : list input) (st : session) :
  Forall delivers_bytes l ->
  handshake_inv H st ->
  slot_inv (cli st) /\ 0 <= pty_len (cli st) /\ stat st <> st_undefined ->
  let st' := run H J parse_uri p st l in
  slot_inv (cli st') /\ 0 <= pty_len (cli st') /\ stat st' <> st_undefined.
Proof.
  intros Hl. revert st. induction Hl as [|i l Hi Hl IH]; intros st Inv Hs.
  - exact Hs.
  - cbn [run fold_left]. apply IH.
    + apply step_handshake, Inv.
    + apply step_safe; assumption.
Qed.

End Safety.

(** X12.  Along a session in which every receive callback delivers at least
    one byte, the callbacks never read outside [initial_cmds], never
    dereference a null [pty_buffer] and never read [client->buffer[0]] of
    an empty buffer, whatever the order of callbacks, thread starts and PTY
    reads. *)
Theorem session_stays_defined (H : server_h) (J : json_c)
  (parse_uri : uri_parser) (p : nat) (s : tty_server) (c0 : tty_client)
  (e0 : env) (l : list input) :
  Forall delivers_bytes l ->
  stat (run H J parse_uri p (session_start H J parse_uri p s c0 e0) l)
  <> st_undefined.
Proof.
  intros Hl.
  apply (run_safe H J parse_uri p l _ Hl).
  - apply session_start_handshake.
  - unfold slot_inv. simpl. repeat split; try discriminate; lia.
Qed.

(** A handshake, a start of the child, a chunk of output and some input. *)
Lemma session_stays_defined_witness :
  stat (run Sample.h Sample.json Sample.parse_uri 7%nat
          (session_start Sample.h Sample.json Sample.parse_uri 7%nat
             Sample.server Sample.zero_client Sample.ok)
          [in_writeable Sample.ok; in_writeable Sample.ok;
           in_writeable Sample.ok; in_writeable Sample.ok;
           in_receive "{}" 0 true Sample.ok; in_thread 42 5;
           in_read 3 "abc"; in_writeable Sample.ok;
           in_receive "0ls" 0 true Sample.ok])
  <> st_undefined.
Proof.
  apply session_stays_defined.
  repeat constructor; discriminate.
Defined.

(** X13.  Along a session the length of the slot is never negative, so once
    the handshake is over the writeable callback closes a session only with
    the normal code 1000: the branch of its test that selects 1011 is never
    taken. *)
Theorem pty_close_is_always_normal (H : server_h) (J : json_c)
  (parse_uri : uri_parser) (p : nat) (s : tty_server) (c0 : tty_client)
  (e0 : env) (l : list input) :
  Forall delivers_bytes l ->
  let st := run H J parse_uri p (session_start H J parse_uri p s c0 e0) l in
  0 <= pty_len (cli st) /\
  (forall e s' c' t,
     initialized (cli st) = true ->
     server_writeable H (srv st) p (cli st) e = Some (-1, s', c', t) ->
     t = [ev_lws_close_reason 1000]).
Proof.
  intros Hl st.
  assert (0 <= pty_len (cli st)) as Hlen.
  { apply (run_safe H J parse_uri p l _ Hl).
    - apply session_start_handshake.
    - unfold slot_inv. simpl. repeat split; try discriminate; lia. }
  split; [exact Hlen|].
  intros e s' c' t Hi. unfold server_writeable. rewrite Hi. cbn [negb].
  destruct (negb (pty_state_eqb (state (cli st)) STATE_READY));
    [discriminate|].
  destruct (Z.leb_spec (pty_len (cli st)) 0) as [L|L].
  - intros E. injection E as _ _ <-.
    destruct (Z.eqb_spec (pty_len (cli st)) 0); [reflexivity|lia].
  - destruct (pty_buffer (cli st)); discriminate.
Qed.

(** The child of the sample session ends with a read error: the session
    is closed with 1000. *)
Lemma pty_close_is_always_normal_witness :
  let st :=
    run Sample.h Sample.json Sample.parse_uri 7%nat
      (session_start Sample.h Sample.json Sample.parse_uri 7%nat
         Sample.server Sample.zero_client Sample.ok)
      [in_writeable Sample.ok; in_writeable Sample.ok;
       in_writeable Sample.ok; in_writeable Sample.ok;
       in_receive "{}" 0 true Sample.ok; in_thread 42 5;
       in_read (-5) EmptyString] in
  exists s' c',
    server_writeable Sample.h (srv st) 7%nat (cli st) Sample.ok =
    Some (-1, s', c', [ev_lws_close_reason 1000]).
Proof.
  intros st.
  assert (Forall delivers_bytes
            [in_writeable Sample.ok; in_writeable Sample.ok;
             in_writeable Sample.ok; in_writeable Sample.ok;
             in_receive "{}" 0 true Sample.ok; in_thread 42 5;
             in_read (-5) EmptyString]) as Hl
    by (repeat constructor; discriminate).
  pose proof (proj2 (pty_close_is_always_normal Sample.h Sample.json
                       Sample.parse_uri 7%nat Sample.server Sample.zero_client
                       Sample.ok _ Hl)) as W.
  fold st in W.
  destruct (server_writeable Sample.h (srv st) 7%nat (cli st) Sample.ok)
    as [[[[ret s'] c'] t]|] eqn:E; [|discriminate E].
  assert (ret = -1) as -> by (vm_compute in E; congruence).
  exists s', c'. rewrite (W Sample.ok s' c' t eq_refl E). reflexivity.
Defined.

(** ** Starting the child *)

(** One [JSON_DATA] message on a server without credential, while no child
    pid is recorded. *)
Lemma json_data_starts_thread (H : server_h) (J : json_c) (s : tty_server)
  (p : nat) (c : tty_client) (e : env) (d : string) :
  client_tags_distinct H ->
  credential s = None -> pid c <= 0 -> buffer c = None ->
  uv_thread_create_ret e = 0 ->
  receive H J s p c e (String (JSON_DATA H) d) 0 true =
  Some (0, s, c, [ev_uv_thread_create 0; ev_free res_buffer]).
Proof.
  intros (D1 & D2 & D3) Hc Hpid Hb Ht.
  rewrite (receive_last_fragment H J s p c e _ (JSON_DATA H) d)
    by (try (left; exact Hc); unfold assemble; now rewrite Hb).
  unfold receive_switch.
  destruct (Ascii.eqb_spec (JSON_DATA H) (INPUT H)); [congruence|].
  destruct (Ascii.eqb_spec (JSON_DATA H) (RESIZE_TERMINAL H)); [congruence|].
  rewrite Ascii.eqb_refl. unfold receive_json_data. cbn [pid set_buffer].
  destruct (Z.ltb_spec 0 (pid c)); [lia|].
  rewrite Hc, Ht. cbn [andb negb Z.eqb after_switch buffer set_buffer app].
  change (set_buffer (set_buffer c (Some (String (JSON_DATA H) d))) None)
    with (set_buffer c None).
  now rewrite (set_buffer_None_id c Hb).
Qed.

(** X14.  On a server without credential, every complete [JSON_DATA]
    message that arrives while no child pid is recorded creates a thread,
    whatever its payload and however many threads were created before: the
    callback does not remember that a child is being started, so [n]
    messages leave [n] more threads waiting to call [forkpty]. *)
Theorem json_data_starts_thread_each_time (H : server_h) (J : json_c)
  (parse_uri : uri_parser) (p : nat) (e : env) (payloads : list string)
  (st : session) :
  client_tags_distinct H ->
  stat st = st_open ->
  credential (srv st) = None -> pid (cli st) <= 0 ->
  buffer (cli st) = None -> uv_thread_create_ret e = 0 ->
  run H J parse_uri p st (messages (JSON_DATA H) e payloads) =
  {| srv := srv st; cli := cli st;
     threads := (threads st + List.length payloads)%nat;
     out := out st ++
            flat_map (fun _ => [ev_uv_thread_create 0; ev_free res_buffer])
              payloads;
     stat := st_open |}.
Proof.
  intros Hd Ho Hc Hpid Hb Ht. revert st Ho Hc Hpid Hb.
  induction payloads as [|d l IH]; intros st Ho Hc Hpid Hb.
  - simpl. rewrite app_nil_r, Nat.add_0_r. destruct st. simpl in Ho.
    now subst.
  - cbn [messages map run fold_left].
    fold (messages (JSON_DATA H) e l).
    fold (run H J parse_uri p
            (step H J parse_uri p st
               (in_receive (String (JSON_DATA H) d) 0 true e))
            (messages (JSON_DATA H) e l)).
    assert (step H J parse_uri p st
              (in_receive (String (JSON_DATA H) d) 0 true e) =
            {| srv := srv st; cli := cli st; threads := S (threads st);
               out := out st ++ [ev_uv_thread_create 0; ev_free res_buffer];
               stat := st_open |}) as ->.
    { unfold step. rewrite Ho. cbn [callback_tty].
      rewrite (json_data_starts_thread H J _ p _ e d Hd Hc Hpid Hb Ht).
      cbn [after_callback started_threads Z.eqb].
      now rewrite Nat.add_1_r. }
    rewrite IH by (assumption || reflexivity).
    cbn [srv cli threads out flat_map List.length].
    rewrite <- app_assoc. f_equal. lia.
Qed.

(** The client sends [{}] twice right after the handshake: two threads. *)
Lemma json_data_starts_thread_each_time_witness :
  let st :=
    {| srv := Sample.registered Sample.server;
       cli := set_initial_cmd_index (set_initialized Sample.zero_client true) 3;
       threads := O; out := []; stat := st_open |} in
  threads (run Sample.h Sample.json Sample.parse_uri 7%nat st
             (messages (JSON_DATA Sample.h) Sample.ok
                ["}"%string; "}"%string])) = 2%nat.
Proof.
  intros st.
  assert (client_tags_distinct Sample.h) as Hd
    by (repeat split; discriminate).
  assert (pid (cli st) <= 0) as Hp by (simpl; lia).
  rewrite (json_data_starts_thread_each_time Sample.h Sample.json
             Sample.parse_uri 7%nat Sample.ok ["}"%string; "}"%string] st
             Hd eq_refl eq_refl Hp eq_refl eq_refl).
  reflexivity.
Defined.

(** X15.  With a credential configured, a complete [JSON_DATA] message
    whose token equals the credential, on a client that is not
    authenticated and has no child, marks the client authenticated, creates
    the thread that starts the child, releases the buffer and returns 0
    without logging. *)
Theorem matching_token_starts_child (H : server_h) (J : json_c)
  (s : tty_server) (p : nat) (c : tty_client) (e : env)
  (cred data rest : string) :
  client_tags_distinct H ->
  credential s = Some cred -> authenticated c = false -> pid c <= 0 ->
  assemble c data = String (JSON_DATA H) rest ->
  token_matches J cred (assemble c data) ->
  uv_thread_create_ret e = 0 ->
  receive H J s p c e data 0 true =
  Some (0, s, set_authenticated (set_buffer c None) true,
        [ev_uv_thread_create 0; ev_free res_buffer]).
Proof.
  intros (D1 & D2 & D3) Hc Ha Hpid Hb M Ht.
  unfold receive. rewrite Hb in *. rewrite Hc.
  cbn [authenticated set_buffer]. rewrite Ha, Ascii.eqb_refl.
  cbn [negb andb orb Z.ltb Z.compare].
  unfold receive_switch.
  destruct (Ascii.eqb_spec (JSON_DATA H) (INPUT H)); [congruence|].
  destruct (Ascii.eqb_spec (JSON_DATA H) (RESIZE_TERMINAL H)); [congruence|].
  rewrite Ascii.eqb_refl. unfold receive_json_data. cbn [pid set_buffer].
  destruct (Z.ltb_spec 0 (pid c)); [lia|]. rewrite Hc.
  destruct (check_auth_token J
              (set_buffer c (Some (String (JSON_DATA H) rest))) cred
              (String (JSON_DATA H) rest)) as [c1 t1] eqn:Ec.
  destruct (check_auth_token_spec _ _ _ _ _ _ Ec)
    as (_ & _ & [(_ & -> & ->)|(NM & _)]); [|contradiction].
  cbn [authenticated set_authenticated andb negb]. rewrite Ht.
  reflexivity.
Qed.

(** The credential is [s3cret] and the client sends it. *)
Lemma matching_token_starts_child_witness :
  let s := Sample.with_credential (Sample.registered Sample.server)
             (Some "s3cret"%string) in
  let c := set_initial_cmd_index (set_initialized Sample.zero_client true) 3 in
  receive Sample.h Sample.json s 7%nat c Sample.ok
    (Sample.auth_frame "s3cret") 0 true =
  Some (0, s, set_authenticated (set_buffer c None) true,
        [ev_uv_thread_create 0; ev_free res_buffer]).
Proof.
  intros s c.
  assert (client_tags_distinct Sample.h) as Hd
    by (repeat split; discriminate).
  assert (pid c <= 0) as Hp by (simpl; lia).
  assert (token_matches Sample.json "s3cret"
            (assemble c (Sample.auth_frame "s3cret"))) as M.
  { exists (Some (Sample.v_string "s3cret")), "s3cret"%string.
    repeat split. }
  exact (matching_token_starts_child Sample.h Sample.json s 7%nat c Sample.ok
           "s3cret" (Sample.auth_frame "s3cret")
           (advance (Sample.auth_frame "s3cret")) Hd eq_refl eq_refl Hp
           eq_refl M eq_refl).
Defined.

(** ** The initial messages *)

(** The three frames that [send_initial_message] builds, and its reading
    outside [initial_cmds] for any other index. *)
Lemma send_initial_message_frames (H : server_h) (s : tty_server) (e : env) :
  server_tags_distinct H ->
  send_initial_message H s e 0 =
    Some (String (SET_WINDOW_TITLE H)
            (c_str (command s) ++ " (" ++ c_str (gethostname e) ++ ")")) /\
  send_initial_message H s e 1 =
    Some (String (SET_RECONNECT H) (sprintf_d (reconnect s))) /\
  send_initial_message H s e 2 =
    Some (String (SET_PREFERENCES H) (c_str (prefs_json s))).
Proof.
  intros (D1 & D2 & D3). unfold send_initial_message, sprintf_s.
  change (Z.to_nat 0) with 0%nat. change (Z.to_nat 1) with 1%nat.
  change (Z.to_nat 2) with 2%nat.
  cbn [Z.ltb Z.compare nth_error initial_cmds].
  rewrite !Ascii.eqb_refl.
  destruct (Ascii.eqb_spec (SET_RECONNECT H) (SET_WINDOW_TITLE H));
    [congruence|].
  destruct (Ascii.eqb_spec (SET_PREFERENCES H) (SET_WINDOW_TITLE H));
    [congruence|].
  destruct (Ascii.eqb_spec (SET_PREFERENCES H) (SET_RECONNECT H));
    [congruence|].
  repeat split.
Qed.

(** A writeable callback during the handshake whose write succeeds hands
    the frame of the current index to [lws_write]. *)
Lemma writeable_emits_frame (H : server_h) (J : json_c)
  (parse_uri : uri_parser) (p : nat) (st : session) (e : env) (k : nat)
  (frame : string) :
  stat st = st_open -> initialized (cli st) = false ->
  initial_cmd_index (cli st) = Z.of_nat k -> (k < 3)%nat ->
  send_initial_message H (srv st) e (Z.of_nat k) = Some frame ->
  0 <= lws_write_ret e ->
  let st' := step H J parse_uri p st (in_writeable e) in
  stat st' = st_open /\ initialized (cli st') = false /\
  initial_cmd_index (cli st') = Z.of_nat (S k) /\ srv st' = srv st /\
  written_frames (out st') = written_frames (out st) ++ [frame].
Proof.
  intros Ho Ei Ex Hk Ef Hw st'. unfold st', step. rewrite Ho.
  cbn [callback_tty]. unfold server_writeable. rewrite Ei, Ex, Ef.
  cbn [negb].
  destruct (Z.eqb_spec (Z.of_nat k) (sizeof_initial_cmds H)) as [E3|_].
  { unfold sizeof_initial_cmds in E3. simpl in E3. lia. }
  destruct (Z.ltb_spec (lws_write_ret e) 0); [lia|].
  cbn [after_callback stat cli out srv initialized initial_cmd_index
         set_initial_cmd_index Z.eqb].
  rewrite written_frames_app. repeat split; try assumption. lia.
Qed.

(** X16.  When the [case] labels of [send_initial_message] differ and the
    three writes succeed, the first three writeable callbacks of a session
    send the tag [SET_WINDOW_TITLE] followed by ["<command> (<hostname>)"],
    the tag [SET_RECONNECT] followed by the reconnect value in decimal, and
    the tag [SET_PREFERENCES] followed by the preferences string, and
    nothing else. *)
Theorem handshake_frames (H : server_h) (J : json_c)
  (parse_uri : uri_parser) (p : nat) (s : tty_server) (c0 : tty_client)
  (e0 e1 e2 e3 : env) :
  server_tags_distinct H ->
  0 <= lws_write_ret e1 -> 0 <= lws_write_ret e2 -> 0 <= lws_write_ret e3 ->
  written_frames
    (out (run H J parse_uri p (session_start H J parse_uri p s c0 e0)
            [in_writeable e1; in_writeable e2; in_writeable e3])) =
  [String (SET_WINDOW_TITLE H)
     (c_str (command s) ++ " (" ++ c_str (gethostname e1) ++ ")");
   String (SET_RECONNECT H) (sprintf_d (reconnect s));
   String (SET_PREFERENCES H) (c_str (prefs_json s))].
Proof.
  intros Hd H1 H2 H3. unfold run. cbn [fold_left].
  set (st0 := session_start H J parse_uri p s c0 e0).
  assert (srv st0 = set_registry s (p :: clients s) (client_count s + 1))
    as Hsrv by reflexivity.
  destruct (send_initial_message_frames H (srv st0) e1 Hd) as (F1 & _ & _).
  destruct (send_initial_message_frames H (srv st0) e2 Hd) as (_ & F2 & _).
  destruct (send_initial_message_frames H (srv st0) e3 Hd) as (_ & _ & F3).
  rewrite Hsrv in F1, F2, F3. cbn [command reconnect prefs_json set_registry]
    in F1, F2, F3. rewrite <- Hsrv in F1, F2, F3.
  destruct (writeable_emits_frame H J parse_uri p st0 e1 0 _
              eq_refl eq_refl eq_refl ltac:(lia) F1 H1)
    as (A1 & B1 & C1 & S1 & W1).
  rewrite <- S1 in F2, F3.
  destruct (writeable_emits_frame H J parse_uri p _ e2 1 _
              A1 B1 C1 ltac:(lia) F2 H2)
    as (A2 & B2 & C2 & S2 & W2).
  rewrite <- S2 in F3.
  destruct (writeable_emits_frame H J parse_uri p _ e3 2 _
              A2 B2 C2 ltac:(lia) F3 H3)
    as (A3 & B3 & C3 & S3 & W3).
  rewrite W3, W2, W1. reflexivity.
Qed.

(** The sample server runs [bash] on [host], with a reconnect value of 10
    and the preferences [{}]. *)
Lemma handshake_frames_witness :
  written_frames
    (out (run Sample.h Sample.json Sample.parse_uri 7%nat
            (session_start Sample.h Sample.json Sample.parse_uri 7%nat
               Sample.server Sample.zero_client Sample.ok)
            [in_writeable Sample.ok; in_writeable Sample.ok;
             in_writeable Sample.ok])) =
  ["1bash (host)"%string; "310"%string; "2{}"%string].
Proof.
  assert (server_tags_distinct Sample.h) as Hd
    by (repeat split; discriminate).
  assert (0 <= lws_write_ret Sample.ok) as Hw by (simpl; lia).
  exact (handshake_frames Sample.h Sample.json Sample.parse_uri 7%nat
           Sample.server Sample.zero_client Sample.ok Sample.ok Sample.ok
           Sample.ok Hd Hw Hw Hw).
Defined.

(** ** Read-only mode *)

Lemma tty_client_remove_readonly (s : tty_server) (p : nat) :
  readonly (tty_client_remove s p) = readonly s.
Proof.
  unfold tty_client_remove. destruct (list_remove p (clients s)) as [l []];
    reflexivity.
Qed.

(** In read-only mode the receive callback writes nothing to the PTY. *)
Lemma receive_readonly (H : server_h) (J : json_c) (s s' : tty_server)
  (p : nat) (c c' : tty_client) (e : env) (data : string) (remaining : Z)
  (final : bool) (ret : Z) (t : trace) :
  readonly s = true ->
  receive H J s p c e data remaining final = Some (ret, s', c', t) ->
  readonly s' = true /\ count_events is_pty_write t = O.
Proof.
  intros Hro.
  unfold receive, after_switch, receive_switch, receive_json_data,
    check_auth_token, parse_window_size.
  rewrite Hro. intros E. callback_cases;
    rewrite ?tty_client_remove_readonly; split; (assumption || reflexivity).
Qed.

Lemma server_writeable_no_pty_write (H : server_h) (s s' : tty_server)
  (p : nat) (c c' : tty_client) (e : env) (ret : Z) (t : trace) :
  server_writeable H s p c e = Some (ret, s', c', t) ->
  readonly s' = readonly s /\ count_events is_pty_write t = O.
Proof.
  unfold server_writeable. intros E. callback_cases;
    rewrite ?tty_client_remove_readonly; split; reflexivity.
Qed.

(** X17.  On a read-only server no step of a session ever calls [write] on
    a PTY, whatever the client sends and in whatever order. *)
Theorem readonly_never_writes (H : server_h) (J : json_c)
  (parse_uri : uri_parser) (p : nat) (l : list input) (st : session) :
  readonly (srv st) = true ->
  count_events is_pty_write (out st) = O ->
  let st' := run H J parse_uri p st l in
  readonly (srv st') = true /\ count_events is_pty_write (out st') = O.
Proof.
  revert st. induction l as [|i l IH]; intros st Hro Hz; [split; assumption|].
  cbn [run fold_left]. apply IH; unfold step;
    destruct (stat st); try assumption;
    destruct i as [e|data remaining final e|child fd|nread buf].
  - cbn [callback_tty].
    destruct (server_writeable H (srv st) p (cli st) e)
      as [[[[ret s'] c'] t]|] eqn:E; [|exact Hro].
    destruct (server_writeable_no_pty_write _ _ _ _ _ _ _ _ _ E) as (Q & _).
    cbn. congruence.
  - cbn [callback_tty].
    destruct (receive H J (srv st) p (cli st) e data remaining final)
      as [[[[ret s'] c'] t]|] eqn:E; [|exact Hro].
    now destruct (receive_readonly _ _ _ _ _ _ _ _ _ _ _ _ _ Hro E).
  - destruct (threads st); [exact Hro|].
    now destruct (thread_cb (cli st) child fd).
  - now destruct (read_cb (cli st) nread buf).
  - cbn [callback_tty].
    destruct (server_writeable H (srv st) p (cli st) e)
      as [[[[ret s'] c'] t]|] eqn:E; [|exact Hz].
    destruct (server_writeable_no_pty_write _ _ _ _ _ _ _ _ _ E) as (_ & Q).
    cbn [after_callback out]. now rewrite count_events_app, Hz, Q.
  - cbn [callback_tty].
    destruct (receive H J (srv st) p (cli st) e data remaining final)
      as [[[[ret s'] c'] t]|] eqn:E; [|exact Hz].
    destruct (receive_readonly _ _ _ _ _ _ _ _ _ _ _ _ _ Hro E) as (_ & Q).
    cbn [after_callback out]. now rewrite count_events_app, Hz, Q.
  - destruct (threads st); [exact Hz|].
    unfold thread_cb. destruct (child =? -1); cbn [out];
      rewrite !count_events_app, Hz; [reflexivity|].
    destruct ((0 <? ws_row (size (set_child (cli st) child fd)))
              && (0 <? ws_col (size (set_child (cli st) child fd))));
      reflexivity.
  - destruct (read_cb (cli st) nread buf) as [c' t| |] eqn:E;
      try exact Hz.
    cbn [out]. rewrite count_events_app, Hz. unfold read_cb in E.
    destruct (negb (running (cli st))); [injection E as _ <-; reflexivity|].
    destruct (pty_state_eqb (state (cli st)) STATE_READY); [discriminate|].
    destruct (nread <=? 0).
    + destruct ((nread =? UV_ENOBUFS) || (nread =? 0)); [discriminate|].
      injection E as _ <-. destruct (negb (nread =? UV_EOF)); reflexivity.
    + injection E as _ <-. reflexivity.
Qed.

(** A read-only session whose client keeps typing. *)
Lemma readonly_never_writes_witness :
  let st :=
    {| srv := Sample.with_readonly (Sample.registered Sample.server) true;
       cli := Sample.running_client; threads := O; out := [];
       stat := st_open |} in
  count_events is_pty_write
    (out (run Sample.h Sample.json Sample.parse_uri 7%nat st
            (messages (INPUT Sample.h) Sample.ok
               ["ls"%string; "pwd"%string]))) = O.
Proof.
  intros st.
  exact (proj2 (readonly_never_writes Sample.h Sample.json Sample.parse_uri
                  7%nat _ st eq_refl eq_refl)).
Defined.
